(** * The home page of the blog: post listing, "All Posts" link, search button

    A shallow embedding of the React components [Home] (the home page) and
    [SearchButton] (components/SearchButton.tsx).  A component is a function
    from its props and the site configuration to a tree of JSX elements; the
    tree is the value the component returns, before React mounts it. *)

From Stdlib Require Import List String Ascii ZArith Bool Lia Sorted Permutation.
Import ListNotations.
Local Open Scope string_scope.
Local Open Scope Z_scope.
Set Warnings "-register-all".

(** ** JSX trees *)

(** The value of an attribute expression. *)
Inductive PropValue : Type :=
| PStr (s : string)
| PNum (n : Z)
| PUndefined.

(** What a component returns and what may stand as a child.  [Elem] is a JSX
    element: its type is a host tag when lowercase (div, li) and a component
    when capitalised (Link, Tag), as in JSX; a component element is kept as
    written, its implementation is not expanded.  [JFalse] and [JUndefined] are
    the values false and undefined, which React renders as nothing.  [Arr] is
    an array child, as produced by Array.prototype.map. *)
Inductive node : Type :=
| Text (s : string)
| JFalse
| JUndefined
| Elem (type : string) (props : list (string * PropValue)) (children : list node)
| Fragment (children : list node)
| Arr (items : list node).

(** ** JavaScript values and operations used by the components *)

Module Js.

(** Array.prototype.slice(start, end) on an array of length len: a negative
    index counts from the end, both indices are clamped to [0, len], and the
    result is a new array holding the elements from start up to end. *)
Definition slice {A : Type} (start final : Z) (l : list A) : list A :=
  let len := Z.of_nat (List.length l) in
  let k := if start <? 0 then Z.max (len + start) 0 else Z.min start len in
  let e := if final <? 0 then Z.max (len + final) 0 else Z.min final len in
  let count := Z.max (e - k) 0 in
  firstn (Z.to_nat count) (skipn (Z.to_nat k) l).

(** A string-valued property of an object: [None] is undefined. *)
Definition template (v : option string) : string :=
  match v with Some s => s | None => "undefined" end.

(** The attribute value an expression of such a property gives. *)
Definition attr (v : option string) : PropValue :=
  match v with Some s => PStr s | None => PUndefined end.

(** The child an expression of such a property gives. *)
Definition child (v : option string) : node :=
  match v with Some s => Text s | None => JUndefined end.

(** e1 && e2 with a boolean e1. *)
Definition and_then (b : bool) (n : node) : node :=
  if b then n else JFalse.

(** Exceptions the components can raise. *)
Inductive Error : Type := TypeError.

Definition Result (A : Type) : Type := (Error + A)%type.
Definition ok {A : Type} (a : A) : Result A := inr a.
Definition throw {A : Type} (e : Error) : Result A := inl e.
Definition bind {A B : Type} (m : Result A) (k : A -> Result B) : Result B :=
  match m with inl e => inl e | inr a => k a end.

(** Array.prototype.map with a callback that may throw: the callback runs on
    the elements from left to right and the first exception ends the loop. *)
Fixpoint map_throwing {A B : Type} (f : A -> Result B) (l : list A) : Result (list B) :=
  match l with
  | [] => ok []
  | x :: l' =>
      bind (f x) (fun y => bind (map_throwing f l') (fun ys => ok (y :: ys)))
  end.

End Js.

Notation "x <- m ;; k" := (Js.bind m (fun x => k))
  (at level 61, m at next level, right associativity).

(** The character U+0022, for the template literal that quotes the title. *)
Definition dquote : string := String (ascii_of_nat 34) EmptyString.

(** ** Data model *)

(** A post as the listing holds it. *)
Record Post : Type := mkPost {
  slug : string;
  date : string;
  title : string;
  summary : string;
  tags : list string;
  draft : bool;
  body : string
}.

(** A post object as [Home] may receive it at run time: each property that
    [Home] destructures is present or undefined. *)
Record JsPost : Type := mkJsPost {
  js_slug : option string;
  js_date : option string;
  js_title : option string;
  js_summary : option string;
  js_tags : option (list string)
}.

Definition to_js (p : Post) : JsPost :=
  {| js_slug := Some (slug p);
     js_date := Some (date p);
     js_title := Some (title p);
     js_summary := Some (summary p);
     js_tags := Some (tags p) |}.

(** The posts prop at run time: undefined, or an array whose entries are
    post objects or undefined. *)
Definition JsPosts : Type := option (list (option JsPost)).

Definition to_js_posts (posts : list Post) : JsPosts :=
  Some (map (fun p => Some (to_js p)) posts).

(** Well-formed input: an array whose every entry is an object carrying the
    slug, date, title, summary and tags properties. *)
Definition well_formed_post (e : option JsPost) : bool :=
  match e with
  | Some p =>
      match js_slug p, js_date p, js_title p, js_summary p, js_tags p with
      | Some _, Some _, Some _, Some _, Some _ => true
      | _, _, _, _, _ => false
      end
  | None => false
  end.

Definition well_formed (posts : JsPosts) : bool :=
  match posts with
  | Some l => forallb well_formed_post l
  | None => false
  end.

(** The part of data/siteMetadata that the two components read. *)
Record NewsletterConfig : Type := { newsletter_provider : string }.
Record SearchConfig : Type := { search_provider : string }.

Record SiteMetadata : Type := {
  description : string;
  locale : string;
  newsletter : option NewsletterConfig;
  search : option SearchConfig
}.

Definition MAX_DISPLAY : Z := 5.

Definition className (s : string) : string * PropValue := ("className", PStr s).

(** ** The components *)

Section Components.

(** The site configuration (data/siteMetadata), and pliny's formatDate, which
    takes the date property as it is and the locale. *)
Variable siteMetadata : SiteMetadata.
Variable formatDate : option string -> string -> string.

(** <Tag key={tag} text={tag} /> *)
Definition TagLabel (tag : string) : node :=
  Elem "Tag" [("key", PStr tag); ("text", PStr tag)] [].

(** The body of the callback of posts.slice(0, MAX_DISPLAY).map, after the
    destructuring of the post and with [tags] an array: the <li> of a post. *)
Definition Card (slug date title summary : option string) (tags : list string) : node :=
  Elem "li" [("key", Js.attr slug); className "px-8 py-8 md:px-0 md:py-12"] [
    Elem "article" [] [
      Elem "div" [className "space-y-2 xl:grid xl:grid-cols-4 xl:items-baseline xl:space-y-0"] [
        Elem "dl" [] [
          Elem "dt" [className "sr-only"] [Text "Published on"];
          Elem "dd" [className "text-base leading-6 font-medium text-gray-500 dark:text-gray-400"] [
            Elem "time" [("dateTime", Js.attr date)]
              [Text (formatDate date (locale siteMetadata))]
          ]
        ];
        Elem "div" [className "space-y-5 xl:col-span-3"] [
          Elem "div" [className "space-y-6"] [
            Elem "div" [] [
              Elem "h2" [className "text-2xl leading-8 font-bold tracking-tight"] [
                Elem "Link"
                  [("href", PStr ("/blog/" ++ Js.template slug));
                   className "text-gray-900 dark:text-gray-100"]
                  [Js.child title]
              ];
              Elem "div" [className "mt-2 flex flex-wrap"] [
                Arr (map TagLabel tags)
              ]
            ];
            Elem "div" [className "prose max-w-none text-gray-500 dark:text-gray-400"] [
              Js.child summary
            ]
          ];
          Elem "div" [className "text-base leading-6 font-medium"] [
            Elem "Link"
              [("href", PStr ("/blog/" ++ Js.template slug));
               className "text-primary-500 hover:text-primary-600 dark:hover:text-primary-400";
               ("aria-label", PStr ("Read more: " ++ dquote ++ Js.template title ++ dquote))]
              [Text "Read more →"]
          ]
        ]
      ]
    ]
  ].

(** The link to the aggregate listing, with its wrapper. *)
Definition AllPostsLink : node :=
  Elem "Link"
    [("href", PStr "/blog");
     className "text-primary-500 hover:text-primary-600 dark:hover:text-primary-400";
     ("aria-label", PStr "All posts")]
    [Text "All Posts →"].

Definition AllPosts : node :=
  Elem "div"
    [className "flex justify-center pt-6 text-base leading-6 font-medium md:justify-end md:pt-4"]
    [AllPostsLink].

(** siteMetadata.newsletter?.provider && <div>...</div>: undefined without a
    newsletter entry, the provider itself when it is the empty string. *)
Definition Newsletter : node :=
  match newsletter siteMetadata with
  | None => JUndefined
  | Some n =>
      if (newsletter_provider n =? "")%string then Text ""
      else Elem "div" [className "flex items-center justify-center pt-8 md:pt-4"]
             [Elem "NewsletterForm" [] []]
  end.

(** The fragment [Home] returns, given posts.length and the array that
    posts.slice(0, MAX_DISPLAY).map(...) evaluated to. *)
Definition HomeFragment (length : Z) (cards : list node) : node :=
  Fragment [
    Elem "div" [className "divide-y divide-gray-200 dark:divide-gray-800"] [
      Elem "div" [className "space-y-2 pt-6 pb-8 md:space-y-5"] [
        Elem "h1" [className "text-center text-3xl leading-9 font-extrabold tracking-tight text-gray-900 sm:text-4xl sm:leading-10 md:text-left md:text-6xl md:leading-14 dark:text-gray-100"] [
          Text "Lucas Bueno"
        ];
        Elem "p" [className "px-6 text-center text-lg leading-7 text-gray-500 md:px-0 md:text-left dark:text-gray-400"] [
          Text (description siteMetadata); Text " "; Elem "br" [] [];
          Elem "span" [className "text-sm text-gray-500 underline dark:text-gray-400"] [
            Text "*This is my notepad 🤡*"
          ]
        ]
      ];
      Elem "ul" [className "divide-y divide-gray-200 dark:divide-gray-800"] [
        Js.and_then (length =? 0) (Text "No posts found.");
        Arr cards;
        Elem "div" [className "block divide-y divide-gray-200 md:hidden dark:divide-gray-800"] []
      ]
    ];
    Js.and_then (MAX_DISPLAY <? length) AllPosts;
    Newsletter
  ].

(** The <li> of a post of the listing. *)
Definition card (post : Post) : node :=
  Card (Some (slug post)) (Some (date post)) (Some (title post))
    (Some (summary post)) (tags post).

(** [Home] on a listing. *)
Definition Home (posts : list Post) : node :=
  HomeFragment (Z.of_nat (List.length posts))
    (map card (Js.slice 0 MAX_DISPLAY posts)).

(** The callback of map on an entry as it is at run time: destructuring an
    undefined entry throws, and so does tags.map on undefined tags. *)
Definition card_js (post : option JsPost) : Js.Result node :=
  match post with
  | None => Js.throw Js.TypeError
  | Some p =>
      match js_tags p with
      | None => Js.throw Js.TypeError
      | Some tags =>
          Js.ok (Card (js_slug p) (js_date p) (js_title p) (js_summary p) tags)
      end
  end.

(** [Home] on the posts prop as it is at run time: posts.length throws on
    undefined posts. *)
Definition Home_js (posts : JsPosts) : Js.Result node :=
  match posts with
  | None => Js.throw Js.TypeError
  | Some l =>
      cards <- Js.map_throwing card_js (Js.slice 0 MAX_DISPLAY l) ;;
      Js.ok (HomeFragment (Z.of_nat (List.length l)) cards)
  end.

(** The search icon inside either button. *)
Definition SearchIcon : node :=
  Elem "CiSearch"
    [("size", PNum 18);
     className "hover:text-primary-500 dark:hover:text-primary-400 h-8 w-8 text-gray-900 dark:text-gray-100"]
    [].

(** [SearchButton]: the function ends without a return statement when the
    condition fails, and so returns undefined. *)
Definition SearchButton : node :=
  match search siteMetadata with
  | Some s =>
      if ((search_provider s =? "algolia") || (search_provider s =? "kbar"))%string then
        let SearchButtonWrapper :=
          if (search_provider s =? "algolia")%string then "AlgoliaButton" else "KBarButton" in
        Elem SearchButtonWrapper [("aria-label", PStr "Search")] [SearchIcon]
      else JUndefined
  | None => JUndefined
  end.

End Components.

(** ** Reading a tree *)

(** The nodes of a tree that satisfy [p], in document order. *)
Fixpoint find_all (p : node -> bool) (n : node) : list node :=
  (if p n then [n] else []) ++
  match n with
  | Elem _ _ cs | Fragment cs | Arr cs => flat_map (find_all p) cs
  | Text _ | JFalse | JUndefined => []
  end.

(** The strings that stand as children anywhere in a tree, in document order. *)
Fixpoint texts (n : node) : list string :=
  match n with
  | Text s => [s]
  | Elem _ _ cs | Fragment cs | Arr cs => flat_map texts cs
  | JFalse | JUndefined => []
  end.

(** What React makes of a child: false, undefined and the empty string give
    nothing, fragments and arrays give what their items give. *)
Fixpoint rendered (n : node) : list node :=
  match n with
  | Text s => if (s =? "")%string then [] else [n]
  | Elem _ _ _ => [n]
  | Fragment cs | Arr cs => flat_map rendered cs
  | JFalse | JUndefined => []
  end.

Definition is_elem (type : string) (n : node) : bool :=
  match n with
  | Elem t _ _ => (t =? type)%string
  | _ => false
  end.

Fixpoint lookup (name : string) (props : list (string * PropValue)) : option PropValue :=
  match props with
  | [] => None
  | (k, v) :: props' => if (k =? name)%string then Some v else lookup name props'
  end.

Definition prop (name : string) (n : node) : option PropValue :=
  match n with
  | Elem _ props _ => lookup name props
  | _ => None
  end.

Definition children (n : node) : list node :=
  match n with
  | Elem _ _ cs | Fragment cs | Arr cs => cs
  | Text _ | JFalse | JUndefined => []
  end.

Definition has_prop (name : string) (v : string) (n : node) : bool :=
  match prop name n with
  | Some (PStr s) => (s =? v)%string
  | _ => false
  end.

(** The summary cards of a page: its <li> elements. *)
Definition cards (t : node) : list node := find_all (is_elem "li") t.

(** The <Link> elements of a tree, and the address of one. *)
Definition links (t : node) : list node := find_all (is_elem "Link") t.
Definition href (l : node) : option PropValue := prop "href" l.

(** The <Tag> labels of a tree. *)
Definition labels (t : node) : list node := find_all (is_elem "Tag") t.

(** What the <time> elements of a tree show, and the dates they carry. *)
Definition shown_dates (t : node) : list string :=
  flat_map texts (find_all (is_elem "time") t).
Definition date_times (t : node) : list (option PropValue) :=
  map (prop "dateTime") (find_all (is_elem "time") t).

(** The rendered children of the <ul> of a page. *)
Definition list_items (t : node) : list node :=
  flat_map rendered (flat_map children (find_all (is_elem "ul") t)).

(** The elements of a tree whose address is [addr]. *)
Definition links_to (addr : string) (t : node) : list node :=
  find_all (has_prop "href" addr) t.

(** The newsletter forms of a tree, and the accessible label of an element. *)
Definition newsletter_forms (t : node) : list node :=
  find_all (is_elem "NewsletterForm") t.
Definition aria_label (n : node) : option PropValue := prop "aria-label" n.

(** siteMetadata.newsletter?.provider as a condition: the entry is there and
    its provider is not the empty string. *)
Definition newsletter_configured (m : SiteMetadata) : bool :=
  match newsletter m with
  | Some n => negb (newsletter_provider n =? "")%string
  | None => false
  end.

(** A node that is the <li> of some entry. *)
Definition is_card (siteMetadata : SiteMetadata)
    (formatDate : option string -> string -> string) (c : node) : Prop :=
  exists s d t su tags, c = Card siteMetadata formatDate s d t su tags.

(** ** The listing *)

(** Dates are ISO-8601 strings: their order is the order of the strings. *)
Definition date_lt (a b : Post) : bool := String.ltb (date a) (date b).
Definition date_le (a b : Post) : bool := String.leb (date a) (date b).

(** Modelled from the spec: the Listing Assembler, whose code (the caller of
    [Home] and the content toolkit it uses) is not among the sources.  It
    filters out the draft posts and sorts the others by date, descending;
    posts of equal date keep the order the content store gave them. *)
Fixpoint insert_by_date (p : Post) (l : list Post) : list Post :=
  match l with
  | [] => [p]
  | q :: l' => if date_lt p q then q :: insert_by_date p l' else p :: q :: l'
  end.

Definition sort_by_date (l : list Post) : list Post :=
  fold_right insert_by_date [] l.

Definition ListingAssembler (posts : list Post) : list Post :=
  sort_by_date (filter (fun p => negb (draft p)) posts).

(** ** Sample data *)

Module Sample.

Definition site : SiteMetadata :=
  {| description := "A blog about web development";
     locale := "en-US";
     newsletter := Some {| newsletter_provider := "buttondown" |};
     search := Some {| search_provider := "kbar" |} |}.

(** A stand-in for the date formatter: the date as it is, marked with the
    locale, and "Invalid Date" for an undefined date. *)
Definition format (d : option string) (loc : string) : string :=
  match d with
  | Some s => s ++ " (" ++ loc ++ ")"
  | None => "Invalid Date"
  end.

Definition post (n : string) (d : string) (ts : list string) (dr : bool) : Post :=
  {| slug := "post-" ++ n; date := d; title := "Post " ++ n;
     summary := "Summary of post " ++ n; tags := ts; draft := dr; body := "" |}.

(** The two posts of data/blog. *)
Definition prisma : Post :=
  {| slug := "how-to-handle-cascading-deletes-in-prisma-and-avoid-foreign-key-errors";
     date := "2025-04-28";
     title := "How to Handle Cascading Deletes in Prisma and Avoid Foreign Key Errors";
     summary := "A step-by-step guide on how to handle cascading deletes in Prisma and avoid foreign key errors when deleting records with relationships.";
     tags := ["prisma"; "database"; "migration"; "delete"; "foreign key"];
     draft := false; body := "" |}.

Definition yarn : Post :=
  {| slug := "how-to-cleaning-up-npm-to-yarn";
     date := "2024-04-24";
     title := "How to Clean Up npm and Migrate to Yarn";
     summary := "A step-by-step guide on how to clean up npm files and migrate a project to use Yarn exclusively, avoiding deployment conflicts.";
     tags := ["yarn"; "npm"; "git"; "deployment"];
     draft := false; body := "" |}.

Definition two : list Post := [prisma; yarn].

Definition seven : list Post :=
  [ post "g" "2025-07-01" ["a"] false;
    post "f" "2025-06-01" [] false;
    prisma;
    post "d" "2025-03-15" ["b"; "c"] false;
    post "c" "2024-12-31" [] false;
    yarn;
    post "a" "2023-01-09" ["a"] false ].

End Sample.

(** ** The posts prop as any run-time value *)

(** What the tags property of an entry may be: undefined, null, a value with
    no map method (a string, a number, a plain object), or an array of
    strings. *)
Inductive RtTags : Type :=
| TagsUndefined
| TagsNull
| TagsNoMap
| TagsArray (tags : list string).

(** An object among the entries: the four string properties are strings or
    undefined. *)
Record RtObject : Type := mkRtObject {
  rt_slug : option string;
  rt_date : option string;
  rt_title : option string;
  rt_summary : option string;
  rt_tags : RtTags
}.

(** An entry that is present in the array: undefined, null, a primitive
    (number, string, boolean) or an object. *)
Inductive RtEntry : Type :=
| EntryUndefined
| EntryNull
| EntryPrimitive
| EntryObject (o : RtObject).

(** The posts prop: undefined, null, or an array, which may be sparse: a slot
    is a hole ([None]) or holds an entry. *)
Inductive RtPosts : Type :=
| PostsUndefined
| PostsNull
| PostsArray (slots : list (option RtEntry)).

(** Array.prototype.map on an array that may be sparse, with a callback that
    may throw: the callback runs on the entries that are present, from left to
    right, and a hole stays a hole. *)
Fixpoint map_slots {A B : Type} (f : A -> Js.Result B) (l : list (option A))
    : Js.Result (list (option B)) :=
  match l with
  | [] => Js.ok []
  | None :: l' => Js.bind (map_slots f l') (fun ys => Js.ok (None :: ys))
  | Some x :: l' =>
      Js.bind (f x) (fun y => Js.bind (map_slots f l') (fun ys => Js.ok (Some y :: ys)))
  end.

(** A slot of an array child: React reads a hole as undefined. *)
Definition child_of_slot (s : option node) : node :=
  match s with Some n => n | None => JUndefined end.

(** What [Home_js] covers of these values. *)
Definition rt_of_js_entry (e : option JsPost) : option RtEntry :=
  Some match e with
       | None => EntryUndefined
       | Some p =>
           EntryObject
             {| rt_slug := js_slug p; rt_date := js_date p; rt_title := js_title p;
                rt_summary := js_summary p;
                rt_tags := match js_tags p with
                           | Some tags => TagsArray tags
                           | None => TagsUndefined
                           end |}
       end.

Definition rt_of_js (posts : JsPosts) : RtPosts :=
  match posts with
  | None => PostsUndefined
  | Some l => PostsArray (map rt_of_js_entry l)
  end.

(** An entry on which the callback of map throws: it is undefined or null
    (the destructuring throws), or its tags are not an array (tags.map
    throws; a primitive has no tags). *)
Definition throwing_entry (e : RtEntry) : Prop :=
  match e with
  | EntryUndefined | EntryNull | EntryPrimitive => True
  | EntryObject o => forall tags, rt_tags o <> TagsArray tags
  end.

Definition throwing_slot (s : option RtEntry) : Prop :=
  exists e, s = Some e /\ throwing_entry e.

(** The entries that are present among slots. *)
Definition present {A : Type} (l : list (option A)) : list A :=
  flat_map (fun s => match s with Some x => [x] | None => [] end) l.

(** A slot of the result of map against the slot it comes from: a hole for
    a hole, a card for an entry. *)
Definition slot_card (siteMetadata : SiteMetadata)
    (formatDate : option string -> string -> string)
    (s : option RtEntry) (c : option node) : Prop :=
  match s, c with
  | None, None => True
  | Some _, Some n => is_card siteMetadata formatDate n
  | _, _ => False
  end.

(** ** The store: what a run of [Home] can reach *)

(** Objects live in a heap and are named by their address; a value that is
    not a primitive is a reference.  The heap holds the array of the posts
    prop, the objects that are its entries, and their arrays of tags. *)
Definition ref : Type := nat.

Inductive HTags : Type :=
| HTagsUndefined
| HTagsNull
| HTagsNoMap
| HTagsRef (r : ref).

Inductive HEntry : Type :=
| HEntryUndefined
| HEntryNull
| HEntryPrimitive
| HEntryRef (r : ref).

Inductive HPosts : Type :=
| HPostsUndefined
| HPostsNull
| HPostsRef (r : ref).

Inductive HObj : Type :=
| HArrayOfEntries (slots : list (option HEntry))
| HPostObject (slug date title summary : option string) (tags : HTags)
| HArrayOfTags (tags : list string).

(** The store: the module-level siteMetadata object and the heap. *)
Record Store : Type := mkStore {
  st_siteMetadata : SiteMetadata;
  st_heap : list HObj
}.

Module Run.

(** A computation on the store: it returns or throws, and leaves a store.
    [None] is a heap outside this model: a reference to no object, or to an
    object of another kind than the operation expects. *)
Definition t (A : Type) : Type := Store -> option (Js.Result A * Store).

Definition ret {A : Type} (a : A) : t A := fun s => Some (Js.ok a, s).
Definition throw {A : Type} (e : Js.Error) : t A := fun s => Some (Js.throw e, s).
Definition outside {A : Type} : t A := fun _ => None.

Definition bind {A B : Type} (m : t A) (k : A -> t B) : t B :=
  fun s =>
    match m s with
    | None => None
    | Some (inl e, s') => Some (inl e, s')
    | Some (inr a, s') => k a s'
    end.

(** Reading the module-level object. *)
Definition module_siteMetadata : t SiteMetadata :=
  fun s => Some (Js.ok (st_siteMetadata s), s).

(** Reading the object at an address. *)
Definition deref (r : ref) : t HObj :=
  fun s =>
    match nth_error (st_heap s) r with
    | Some o => Some (Js.ok o, s)
    | None => None
    end.

(** A new object, at a new address. *)
Definition alloc (o : HObj) : t ref :=
  fun s =>
    Some (Js.ok (List.length (st_heap s)),
          {| st_siteMetadata := st_siteMetadata s; st_heap := st_heap s ++ [o] |}).

Fixpoint replace_nth {A : Type} (n : nat) (x : A) (l : list A) : list A :=
  match l, n with
  | [], _ => []
  | _ :: l', O => x :: l'
  | y :: l', S n' => y :: replace_nth n' x l'
  end.

(** Writing the object at an address.  [Home] has no use for it. *)
Definition store (r : ref) (o : HObj) : t unit :=
  fun s =>
    match nth_error (st_heap s) r with
    | Some _ =>
        Some (Js.ok tt,
              {| st_siteMetadata := st_siteMetadata s;
                 st_heap := replace_nth r o (st_heap s) |})
    | None => None
    end.

End Run.

Notation "x <~ m ;; k" := (Run.bind m (fun x => k))
  (at level 61, m at next level, right associativity).

(** The slots of posts: reading a property of undefined or null throws. *)
Definition slots_of (posts : HPosts) : Run.t (list (option HEntry)) :=
  match posts with
  | HPostsUndefined | HPostsNull => Run.throw Js.TypeError
  | HPostsRef r =>
      o <~ Run.deref r ;;
      match o with
      | HArrayOfEntries slots => Run.ret slots
      | _ => Run.outside
      end
  end.

(** posts.length *)
Definition get_length (posts : HPosts) : Run.t Z :=
  slots <~ slots_of posts ;;
  Run.ret (Z.of_nat (List.length slots)).

(** posts.slice(start, end): a new array; posts is left as it is. *)
Definition Array_slice (posts : HPosts) (start final : Z) : Run.t HPosts :=
  slots <~ slots_of posts ;;
  r <~ Run.alloc (HArrayOfEntries (Js.slice start final slots)) ;;
  Run.ret (HPostsRef r).

(** The callback of map over slots, holes skipped and kept. *)
Fixpoint run_slots {A B : Type} (f : A -> Run.t B) (l : list (option A))
    : Run.t (list (option B)) :=
  match l with
  | [] => Run.ret []
  | None :: l' => ys <~ run_slots f l' ;; Run.ret (None :: ys)
  | Some x :: l' =>
      y <~ f x ;;
      ys <~ run_slots f l' ;;
      Run.ret (Some y :: ys)
  end.

(** array.map(callback): the array of the results is part of the tree that
    [Home] returns, and is kept with it rather than in the heap. *)
Definition Array_map (array : HPosts) (callback : HEntry -> Run.t node)
    : Run.t (list (option node)) :=
  slots <~ slots_of array ;;
  run_slots callback slots.

(** const { slug, date, title, summary, tags } = post *)
Definition destructure (post : HEntry)
    : Run.t (option string * option string * option string * option string * HTags) :=
  match post with
  | HEntryUndefined | HEntryNull => Run.throw Js.TypeError
  | HEntryPrimitive => Run.ret (None, None, None, None, HTagsUndefined)
  | HEntryRef r =>
      o <~ Run.deref r ;;
      match o with
      | HPostObject slug date title summary tags =>
          Run.ret (slug, date, title, summary, tags)
      | _ => Run.outside
      end
  end.

(** The elements that tags.map goes through. *)
Definition tags_of (tags : HTags) : Run.t (list string) :=
  match tags with
  | HTagsUndefined | HTagsNull | HTagsNoMap => Run.throw Js.TypeError
  | HTagsRef r =>
      o <~ Run.deref r ;;
      match o with
      | HArrayOfTags l => Run.ret l
      | _ => Run.outside
      end
  end.

(** What the heap holds behind a value, read in depth. *)
Fixpoint traverse {A B : Type} (f : A -> option B) (l : list A) : option (list B) :=
  match l with
  | [] => Some []
  | x :: l' =>
      match f x, traverse f l' with
      | Some y, Some ys => Some (y :: ys)
      | _, _ => None
      end
  end.

Definition read_tags (h : list HObj) (t : HTags) : option RtTags :=
  match t with
  | HTagsUndefined => Some TagsUndefined
  | HTagsNull => Some TagsNull
  | HTagsNoMap => Some TagsNoMap
  | HTagsRef r =>
      match nth_error h r with
      | Some (HArrayOfTags l) => Some (TagsArray l)
      | _ => None
      end
  end.

Definition read_entry (h : list HObj) (e : HEntry) : option RtEntry :=
  match e with
  | HEntryUndefined => Some EntryUndefined
  | HEntryNull => Some EntryNull
  | HEntryPrimitive => Some EntryPrimitive
  | HEntryRef r =>
      match nth_error h r with
      | Some (HPostObject s d t su tg) =>
          match read_tags h tg with
          | Some tg' =>
              Some (EntryObject {| rt_slug := s; rt_date := d; rt_title := t;
                                   rt_summary := su; rt_tags := tg' |})
          | None => None
          end
      | _ => None
      end
  end.

Definition read_slot (h : list HObj) (s : option HEntry) : option (option RtEntry) :=
  match s with
  | None => Some None
  | Some e => option_map Some (read_entry h e)
  end.

Definition read_posts (h : list HObj) (p : HPosts) : option RtPosts :=
  match p with
  | HPostsUndefined => Some PostsUndefined
  | HPostsNull => Some PostsNull
  | HPostsRef r =>
      match nth_error h r with
      | Some (HArrayOfEntries slots) =>
          option_map PostsArray (traverse (read_slot h) slots)
      | _ => None
      end
  end.

(** Array.prototype.reverse on posts: it writes the array in place.  [Home]
    calls nothing of the kind; this is what a write looks like. *)
Definition Array_reverse (posts : HPosts) : Run.t HPosts :=
  match posts with
  | HPostsUndefined | HPostsNull => Run.throw Js.TypeError
  | HPostsRef r =>
      slots <~ slots_of posts ;;
      _ <~ Run.store r (HArrayOfEntries (rev slots)) ;;
      Run.ret posts
  end.

Section RunTime.

Variable formatDate : option string -> string -> string.

(** The callback of map on an entry that is present. *)
Definition card_rt (siteMetadata : SiteMetadata) (e : RtEntry) : Js.Result node :=
  match e with
  | EntryUndefined | EntryNull => Js.throw Js.TypeError
  | EntryPrimitive => Js.throw Js.TypeError
  | EntryObject o =>
      match rt_tags o with
      | TagsArray tags =>
          Js.ok (Card siteMetadata formatDate (rt_slug o) (rt_date o) (rt_title o)
                   (rt_summary o) tags)
      | TagsUndefined | TagsNull | TagsNoMap => Js.throw Js.TypeError
      end
  end.

(** [Home] on any of these values of posts. *)
Definition Home_rt (siteMetadata : SiteMetadata) (posts : RtPosts) : Js.Result node :=
  match posts with
  | PostsUndefined | PostsNull => Js.throw Js.TypeError
  | PostsArray slots =>
      cards <- map_slots (card_rt siteMetadata) (Js.slice 0 MAX_DISPLAY slots) ;;
      Js.ok (HomeFragment siteMetadata (Z.of_nat (List.length slots))
               (map child_of_slot cards))
  end.

(** [Home] as a run on the store, operation by operation.  The module
    object and posts.length are read once: nothing is written between their
    uses. *)
Definition Home_run (posts : HPosts) : Run.t node :=
  siteMetadata <~ Run.module_siteMetadata ;;
  length <~ get_length posts ;;
  sliced <~ Array_slice posts 0 MAX_DISPLAY ;;
  cards <~ Array_map sliced (fun post =>
             fields <~ destructure post ;;
             let '(slug, date, title, summary, tags) := fields in
             tags <~ tags_of tags ;;
             Run.ret (Card siteMetadata formatDate slug date title summary tags)) ;;
  Run.ret (HomeFragment siteMetadata length (map child_of_slot cards)).

End RunTime.

(** Sample values: the two posts of data/blog as objects, in an array with
    a hole between them, as values and in a heap. *)
Module SampleStore.

Definition object (p : Post) : RtObject :=
  {| rt_slug := Some (slug p); rt_date := Some (date p); rt_title := Some (title p);
     rt_summary := Some (summary p); rt_tags := TagsArray (tags p) |}.

Definition sparse : RtPosts :=
  PostsArray [Some (EntryObject (object Sample.prisma)); None;
              Some (EntryObject (object Sample.yarn))].

Definition heap : list HObj :=
  [ HArrayOfTags (tags Sample.yarn);
    HPostObject (Some (slug Sample.yarn)) (Some (date Sample.yarn))
      (Some (title Sample.yarn)) (Some (summary Sample.yarn)) (HTagsRef 0%nat);
    HArrayOfTags (tags Sample.prisma);
    HPostObject (Some (slug Sample.prisma)) (Some (date Sample.prisma))
      (Some (title Sample.prisma)) (Some (summary Sample.prisma)) (HTagsRef 2%nat);
    HArrayOfEntries [Some (HEntryRef 3%nat); None; Some (HEntryRef 1%nat)] ].

Definition posts : HPosts := HPostsRef 4%nat.

Definition store : Store :=
  {| st_siteMetadata := Sample.site; st_heap := heap |}.

End SampleStore.

(** ** Helper lemmas *)

Lemma firstn_min_length {A : Type} (n : nat) (l : list A) :
  firstn (Nat.min n (List.length l)) l = firstn n l.
Proof.
  destruct (Nat.le_ge_cases n (List.length l)) as [H | H].
  - now rewrite Nat.min_l.
  - rewrite Nat.min_r by assumption.
    now rewrite !firstn_all2 by lia.
Qed.

(** slice(0, n) with a non-negative n keeps the first n elements. *)
Lemma slice_0 {A : Type} (n : Z) (l : list A) :
  0 <= n -> Js.slice 0 n l = firstn (Z.to_nat n) l.
Proof.
  intros Hn. unfold Js.slice.
  assert (Hlen : 0 <= Z.of_nat (List.length l)) by lia.
  replace (0 <? 0) with false by reflexivity.
  replace (n <? 0) with false by (symmetry; apply Z.ltb_ge; exact Hn).
  rewrite (Z.min_l 0) by exact Hlen. cbn [Z.to_nat skipn].
  rewrite Z.sub_0_r, Z.max_l by lia.
  rewrite Z2Nat.inj_min, Nat2Z.id.
  apply firstn_min_length.
Qed.

Lemma slice_MAX_DISPLAY {A : Type} (l : list A) :
  Js.slice 0 MAX_DISPLAY l = firstn 5 l.
Proof. now rewrite slice_0. Qed.

Lemma flat_map_map {A B C : Type} (f : A -> B) (g : B -> list C) (l : list A) :
  flat_map g (map f l) = flat_map (fun x => g (f x)) l.
Proof.
  induction l as [| x l IH]; cbn; [reflexivity | now rewrite IH].
Qed.

Lemma flat_map_singleton {A B : Type} (f : A -> B) (l : list A) :
  flat_map (fun x => [f x]) l = map f l.
Proof.
  induction l as [| x l IH]; cbn; [reflexivity | now rewrite IH].
Qed.

Lemma flat_map_nil {A B : Type} (l : list A) :
  flat_map (fun _ => @nil B) l = [].
Proof. induction l; cbn; auto. Qed.

(** The labels of a post have no children: a search among them is a filter. *)
Lemma find_all_TagLabels (p : node -> bool) (tags : list string) :
  flat_map (find_all p) (map TagLabel tags) = filter p (map TagLabel tags).
Proof.
  induction tags as [| t tags IH]; cbn; [reflexivity |].
  rewrite IH. unfold TagLabel.
  now destruct (p _).
Qed.

Lemma filter_none {A : Type} (p : A -> bool) (l : list A) :
  (forall x, In x l -> p x = false) -> filter p l = [].
Proof.
  induction l as [| x l IH]; cbn; intros H; [reflexivity |].
  rewrite (H x) by now left. apply IH. intros y Hy. apply H. now right.
Qed.

Lemma filter_all {A : Type} (p : A -> bool) (l : list A) :
  (forall x, In x l -> p x = true) -> filter p l = l.
Proof.
  induction l as [| x l IH]; cbn; intros H; [reflexivity |].
  rewrite (H x) by now left. f_equal. apply IH. intros y Hy. apply H. now right.
Qed.

Lemma texts_TagLabels (tags : list string) :
  flat_map texts (map TagLabel tags) = [].
Proof. induction tags; cbn; auto. Qed.

(** An address below /blog/ is not the address of the listing. *)
Lemma blog_slug_neq (s : string) : (("/blog/" ++ s) =? "/blog")%string = false.
Proof. reflexivity. Qed.


Lemma In_firstn {A : Type} (n : nat) (l : list A) (x : A) :
  In x (firstn n l) -> In x l.
Proof.
  intros H. rewrite <- (firstn_skipn n l). apply in_or_app. now left.
Qed.

(** A strongly sorted concatenation: both parts are sorted and every element
    of the first part is related to every element of the second. *)
Lemma StronglySorted_app {A : Type} (R : A -> A -> Prop) (l1 l2 : list A) :
  StronglySorted R (l1 ++ l2) ->
  StronglySorted R l1 /\ StronglySorted R l2 /\
  (forall a b, In a l1 -> In b l2 -> R a b).
Proof.
  induction l1 as [| x l1 IH]; cbn; intros H.
  - repeat split; [constructor | exact H | intros a b []].
  - apply StronglySorted_inv in H. destruct H as [Hs Hall].
    destruct (IH Hs) as (H1 & H2 & H12).
    rewrite Forall_app in Hall. destruct Hall as [Hx1 Hx2].
    repeat split; [now constructor | exact H2 |].
    intros a b [<- | Ha] Hb.
    + rewrite Forall_forall in Hx2. now apply Hx2.
    + now apply H12.
Qed.

Lemma StronglySorted_map {A B : Type} (f : A -> B) (R : B -> B -> Prop) (l : list A) :
  StronglySorted (fun a b => R (f a) (f b)) l -> StronglySorted R (map f l).
Proof.
  induction 1 as [| x l Hs IH Hall]; cbn; constructor; [exact IH |].
  rewrite Forall_map. exact Hall.
Qed.

(** On strings, at most and different give less. *)
Lemma string_leb_neq_ltb (a b : string) :
  String.leb a b = true -> a <> b -> String.ltb a b = true.
Proof.
  unfold String.leb, String.ltb. intros Hle Hne.
  destruct (String.compare a b) eqn:Hc; [| reflexivity | discriminate Hle].
  apply String.compare_eq_iff in Hc. contradiction.
Qed.

(** A listing sorted by date with no date twice is strictly sorted. *)
Lemma strictly_descending (l : list Post) :
  NoDup (map date l) ->
  StronglySorted (fun a b => date_le b a = true) l ->
  StronglySorted (fun a b => date_lt b a = true) l.
Proof.
  intros Hnd Hs. induction Hs as [| x l Hs IH Hall]; [constructor |].
  cbn in Hnd. apply NoDup_cons_iff in Hnd. destruct Hnd as [Hnotin Hnd].
  constructor; [now apply IH |].
  rewrite Forall_forall in Hall |- *. intros y Hy.
  apply string_leb_neq_ltb; [now apply Hall |].
  intros Heq. apply Hnotin. rewrite <- Heq. now apply in_map.
Qed.

Lemma forallb_firstn {A : Type} (f : A -> bool) (n : nat) (l : list A) :
  forallb f l = true -> forallb f (firstn n l) = true.
Proof.
  rewrite !forallb_forall. intros H x Hx. apply H. now apply In_firstn in Hx.
Qed.

(** Inserting into and sorting a listing keep what holds of every post. *)
Lemma insert_by_date_Forall (P : Post -> Prop) (p : Post) (l : list Post) :
  P p -> Forall P l -> Forall P (insert_by_date p l).
Proof.
  intros Hp Hl. induction Hl as [| q l Hq Hl IH]; cbn.
  - now constructor.
  - destruct (date_lt p q); repeat constructor; assumption.
Qed.

Lemma sort_by_date_Forall (P : Post -> Prop) (l : list Post) :
  Forall P l -> Forall P (sort_by_date l).
Proof.
  induction 1 as [| p l Hp Hl IH]; cbn.
  - constructor.
  - now apply insert_by_date_Forall.
Qed.

(** The date order on strings is total: not less means at least. *)
Lemma date_lt_false_le (p q : Post) : date_lt p q = false -> date_le q p = true.
Proof.
  unfold date_lt, date_le, String.ltb, String.leb.
  rewrite (String.compare_antisym (date p) (date q)).
  now destruct (String.compare (date q) (date p)).
Qed.

Lemma date_lt_le (p q : Post) : date_lt p q = true -> date_le p q = true.
Proof.
  unfold date_lt, date_le, String.ltb, String.leb.
  now destruct (String.compare (date p) (date q)).
Qed.

(** The sort of the listing rearranges its input, and leaves it with every
    post at least as recent as the next one. *)
Lemma insert_by_date_Permutation (p : Post) (l : list Post) :
  Permutation (p :: l) (insert_by_date p l).
Proof.
  induction l as [| q l IH]; cbn; [reflexivity |].
  destruct (date_lt p q); [| reflexivity].
  rewrite perm_swap. now apply perm_skip.
Qed.

Lemma sort_by_date_Permutation (l : list Post) :
  Permutation l (sort_by_date l).
Proof.
  induction l as [| p l IH]; cbn; [reflexivity |].
  rewrite <- insert_by_date_Permutation. now apply perm_skip.
Qed.

Lemma insert_by_date_Sorted (p : Post) (l : list Post) :
  Sorted (fun a b => date_le b a = true) l ->
  Sorted (fun a b => date_le b a = true) (insert_by_date p l).
Proof.
  induction 1 as [| q l Hs IH Hhd]; cbn.
  - repeat constructor.
  - destruct (date_lt p q) eqn:Hpq.
    + constructor; [exact IH |].
      destruct l as [| r l]; cbn.
      * constructor. now apply date_lt_le.
      * destruct (date_lt p r); constructor;
          [now inversion Hhd | now apply date_lt_le].
    + repeat constructor; [exact Hs | exact Hhd | now apply date_lt_false_le].
Qed.

Lemma sort_by_date_Sorted (l : list Post) :
  Sorted (fun a b => date_le b a = true) (sort_by_date l).
Proof.
  induction l as [| p l IH]; cbn; [constructor | now apply insert_by_date_Sorted].
Qed.

Lemma ListingAssembler_sorted_non_drafts (posts : list Post) :
  Permutation (filter (fun p => negb (draft p)) posts) (ListingAssembler posts)
  /\ Sorted (fun a b => date_le b a = true) (ListingAssembler posts).
Proof.
  split; [apply sort_by_date_Permutation | apply sort_by_date_Sorted].
Qed.

Section Properties.

Variable siteMetadata : SiteMetadata.
Variable formatDate : option string -> string -> string.

(** Searches and readings of a card go through its fixed frame; what is left
    is the array of labels, which [tag_labels] settles. *)
Ltac tag_labels :=
  rewrite ?find_all_TagLabels, ?texts_TagLabels;
  try (rewrite filter_none
         by (intros ? [? [<- _]]%in_map_iff; reflexivity));
  try (rewrite filter_all
         by (intros ? [? [<- _]]%in_map_iff; reflexivity)).

Ltac read_card :=
  intros;
  repeat match goal with v : option string |- _ => destruct v end;
  cbv beta delta [Card cards links labels shown_dates date_times links_to];
  cbn; tag_labels; rewrite ?app_nil_r; try reflexivity.

Lemma cards_Card s d t su tags :
  cards (Card siteMetadata formatDate s d t su tags) =
  [Card siteMetadata formatDate s d t su tags].
Proof. read_card. Qed.

Lemma texts_Card s d t su tags :
  texts (Card siteMetadata formatDate s d t su tags) =
  (["Published on"; formatDate d (locale siteMetadata)]
     ++ texts (Js.child t) ++ texts (Js.child su) ++ ["Read more →"])%list.
Proof. read_card. Qed.

Lemma links_Card s d t su tags :
  links (Card siteMetadata formatDate s d t su tags) =
  [ Elem "Link"
      [("href", PStr ("/blog/" ++ Js.template s));
       className "text-gray-900 dark:text-gray-100"]
      [Js.child t];
    Elem "Link"
      [("href", PStr ("/blog/" ++ Js.template s));
       className "text-primary-500 hover:text-primary-600 dark:hover:text-primary-400";
       ("aria-label", PStr ("Read more: " ++ dquote ++ Js.template t ++ dquote))]
      [Text "Read more →"] ].
Proof. read_card. Qed.

Lemma labels_Card s d t su tags :
  labels (Card siteMetadata formatDate s d t su tags) = map TagLabel tags.
Proof. read_card. Qed.

Lemma shown_dates_Card s d t su tags :
  shown_dates (Card siteMetadata formatDate s d t su tags) =
  [formatDate d (locale siteMetadata)].
Proof. read_card. Qed.

Lemma date_times_Card s d t su tags :
  date_times (Card siteMetadata formatDate s d t su tags) = [Some (Js.attr d)].
Proof. read_card. Qed.

Lemma links_to_blog_Card s d t su tags :
  links_to "/blog" (Card siteMetadata formatDate s d t su tags) = [].
Proof. read_card. Qed.

Lemma lists_Card s d t su tags :
  find_all (is_elem "ul") (Card siteMetadata formatDate s d t su tags) = [].
Proof. read_card. Qed.

(** The fixed frame of the page: a search or reading of it splits on the two
    conditions and on the newsletter entry. *)
Ltac read_home :=
  intros;
  cbv beta delta [HomeFragment Newsletter Js.and_then AllPosts AllPostsLink
                  cards links labels shown_dates date_times links_to list_items];
  repeat match goal with
    | |- context [if ?c then _ else _] => destruct c
    | |- context [match newsletter ?m with _ => _ end] => destruct (newsletter m)
    end;
  cbn; rewrite ?app_nil_r; try reflexivity.

Lemma cards_HomeFragment len cs :
  cards (HomeFragment siteMetadata len cs) = flat_map cards cs.
Proof. read_home. Qed.

Lemma links_to_blog_HomeFragment len cs :
  links_to "/blog" (HomeFragment siteMetadata len cs) =
  (flat_map (links_to "/blog") cs
     ++ (if MAX_DISPLAY <? len then [AllPostsLink] else []))%list.
Proof. read_home. Qed.

Lemma times_HomeFragment len cs :
  find_all (is_elem "time") (HomeFragment siteMetadata len cs) =
  flat_map (find_all (is_elem "time")) cs.
Proof. read_home. Qed.

Lemma times_Card s d t su tags :
  find_all (is_elem "time") (Card siteMetadata formatDate s d t su tags) =
  [Elem "time" [("dateTime", Js.attr d)] [Text (formatDate d (locale siteMetadata))]].
Proof. read_card. Qed.

Lemma lists_HomeFragment len cs :
  find_all (is_elem "ul") (HomeFragment siteMetadata len cs) =
  (Elem "ul" [className "divide-y divide-gray-200 dark:divide-gray-800"]
     [Js.and_then (len =? 0) (Text "No posts found.");
      Arr cs;
      Elem "div" [className "block divide-y divide-gray-200 md:hidden dark:divide-gray-800"] []]
   :: flat_map (find_all (is_elem "ul")) cs)%list.
Proof. read_home. Qed.

Lemma texts_Newsletter :
  texts (Newsletter siteMetadata) = [] \/ texts (Newsletter siteMetadata) = [""].
Proof.
  unfold Newsletter. destruct (newsletter siteMetadata) as [n |]; [| now left].
  destruct (newsletter_provider n =? "")%string; [now right | now left].
Qed.

Lemma texts_HomeFragment len cs :
  texts (HomeFragment siteMetadata len cs) =
  (["Lucas Bueno"; description siteMetadata; " "; "*This is my notepad 🤡*"]
     ++ (if len =? 0 then ["No posts found."] else [])
     ++ flat_map texts cs
     ++ (if MAX_DISPLAY <? len then ["All Posts →"] else [])
     ++ texts (Newsletter siteMetadata))%list.
Proof. read_home. Qed.

(** Lifting a reading of one card to the cards of a listing. *)
Lemma flat_map_cards {B : Type} (f : node -> list B) (g : Post -> list B) (l : list Post) :
  (forall p, f (card siteMetadata formatDate p) = g p) ->
  flat_map f (map (card siteMetadata formatDate) l) = flat_map g l.
Proof.
  intros H. rewrite flat_map_map. apply flat_map_ext. exact H.
Qed.

Lemma cards_Home posts :
  cards (Home siteMetadata formatDate posts) =
  map (card siteMetadata formatDate) (firstn 5 posts).
Proof.
  unfold Home. rewrite cards_HomeFragment, slice_MAX_DISPLAY.
  rewrite (flat_map_cards cards (fun p => [card siteMetadata formatDate p])).
  - apply flat_map_singleton.
  - intros p. apply cards_Card.
Qed.

Lemma links_to_blog_Home posts :
  links_to "/blog" (Home siteMetadata formatDate posts) =
  if MAX_DISPLAY <? Z.of_nat (List.length posts) then [AllPostsLink] else [].
Proof.
  unfold Home. rewrite links_to_blog_HomeFragment, slice_MAX_DISPLAY.
  rewrite (flat_map_cards _ (fun _ => [])).
  - now rewrite flat_map_nil.
  - intros p. apply links_to_blog_Card.
Qed.

Lemma times_Home posts :
  find_all (is_elem "time") (Home siteMetadata formatDate posts) =
  map (fun p => Elem "time" [("dateTime", PStr (date p))]
                  [Text (formatDate (Some (date p)) (locale siteMetadata))])
      (firstn 5 posts).
Proof.
  unfold Home. rewrite times_HomeFragment, slice_MAX_DISPLAY.
  erewrite flat_map_cards; [apply flat_map_singleton |].
  intros p. apply times_Card.
Qed.

Lemma texts_card p :
  texts (card siteMetadata formatDate p) =
  ["Published on"; formatDate (Some (date p)) (locale siteMetadata);
   title p; summary p; "Read more →"].
Proof. unfold card. now rewrite texts_Card. Qed.

Lemma rendered_card p :
  rendered (card siteMetadata formatDate p) = [card siteMetadata formatDate p].
Proof. reflexivity. Qed.

Lemma list_items_Home posts :
  list_items (Home siteMetadata formatDate posts) =
  ((if Z.of_nat (List.length posts) =? 0 then [Text "No posts found."] else [])
     ++ map (card siteMetadata formatDate) (firstn 5 posts)
     ++ [Elem "div"
           [className "block divide-y divide-gray-200 md:hidden dark:divide-gray-800"] []])%list.
Proof.
  unfold list_items, Home.
  rewrite lists_HomeFragment, slice_MAX_DISPLAY.
  rewrite (flat_map_cards _ (fun _ => [])) by (intros p; apply lists_Card).
  rewrite flat_map_nil.
  cbn [flat_map children rendered app]. rewrite ?app_nil_r.
  rewrite (flat_map_cards _ (fun p => [card siteMetadata formatDate p]))
    by (intros p; apply rendered_card).
  rewrite flat_map_singleton.
  unfold Js.and_then. now destruct (Z.of_nat (List.length posts) =? 0).
Qed.

(** *** The claims about the page *)

(** C1. For every sequence of posts, the summary cards of the page are the
    cards of the first min(length(posts), MAX_DISPLAY) posts, one card per
    post and in the order of the sequence: the i-th card is the card of the
    i-th post, and carries that post's slug as its key. *)
Theorem Home_renders_first_MAX_DISPLAY (posts : list Post) :
  cards (Home siteMetadata formatDate posts) =
    map (card siteMetadata formatDate)
      (firstn (Nat.min (List.length posts) (Z.to_nat MAX_DISPLAY)) posts)
  /\ List.length (cards (Home siteMetadata formatDate posts)) =
       Nat.min (List.length posts) (Z.to_nat MAX_DISPLAY)
  /\ map (prop "key") (cards (Home siteMetadata formatDate posts)) =
       map (fun p => Some (PStr (slug p)))
         (firstn (Nat.min (List.length posts) (Z.to_nat MAX_DISPLAY)) posts)
  /\ forall i : nat,
       (i < Nat.min (List.length posts) (Z.to_nat MAX_DISPLAY))%nat ->
       nth_error (cards (Home siteMetadata formatDate posts)) i =
       option_map (card siteMetadata formatDate) (nth_error posts i).
Proof.
  rewrite cards_Home.
  change (Z.to_nat MAX_DISPLAY) with 5%nat.
  rewrite (Nat.min_comm (List.length posts) 5), firstn_min_length.
  repeat split.
  - rewrite length_map, length_firstn. reflexivity.
  - rewrite map_map. reflexivity.
  - intros i Hi. rewrite nth_error_map, nth_error_firstn.
    destruct (Nat.ltb_spec i 5) as [_ | Hge]; [reflexivity | lia].
Qed.

(** C2. The page holds an element whose address is /blog exactly when the
    sequence has more than MAX_DISPLAY posts, and then it holds one, the
    "All Posts" link; with MAX_DISPLAY posts or fewer neither the link nor
    its wrapper is among what the page renders. *)
Theorem Home_all_posts_link (posts : list Post) :
  links_to "/blog" (Home siteMetadata formatDate posts) =
    (if MAX_DISPLAY <? Z.of_nat (List.length posts) then [AllPostsLink] else [])
  /\ (In AllPosts (flat_map rendered (children (Home siteMetadata formatDate posts)))
      <-> MAX_DISPLAY < Z.of_nat (List.length posts)).
Proof.
  split; [apply links_to_blog_Home |].
  unfold Home, HomeFragment, Newsletter, Js.and_then.
  cbn [children flat_map rendered app].
  destruct (Z.ltb_spec MAX_DISPLAY (Z.of_nat (List.length posts))) as [Hlt | Hge].
  - split; [intros _; exact Hlt | intros _; right; left; reflexivity].
  - split; [| lia].
    intros [H | H]; [discriminate H |].
    destruct (newsletter siteMetadata) as [n |]; [| contradiction].
    destruct (newsletter_provider n =? "")%string; cbn in H;
      [contradiction | destruct H as [H | []]; discriminate H].
Qed.

(** C3. With no posts, the list holds the text "No posts found." and no
    card.  With one post or more, the list holds no such text; and the text
    is then nowhere on the page, unless the description, a formatted date, a
    title or a summary is that very text. *)
Theorem Home_no_posts_message (posts : list Post) :
  (posts = [] ->
     list_items (Home siteMetadata formatDate posts) =
       [Text "No posts found.";
        Elem "div"
          [className "block divide-y divide-gray-200 md:hidden dark:divide-gray-800"] []]
     /\ cards (Home siteMetadata formatDate posts) = []
     /\ In "No posts found." (texts (Home siteMetadata formatDate posts)))
  /\ (posts <> [] ->
      ~ In (Text "No posts found.") (list_items (Home siteMetadata formatDate posts))
      /\ (description siteMetadata <> "No posts found." ->
          (forall p, In p posts ->
             formatDate (Some (date p)) (locale siteMetadata) <> "No posts found."
             /\ title p <> "No posts found."
             /\ summary p <> "No posts found.") ->
          ~ In "No posts found." (texts (Home siteMetadata formatDate posts)))).
Proof.
  split.
  - intros ->. split; [| split].
    + now rewrite list_items_Home.
    + now rewrite cards_Home.
    + unfold Home. rewrite texts_HomeFragment.
      cbn. right. right. right. right. left. reflexivity.
  - intros Hne.
    assert (Hlen : (Z.of_nat (List.length posts) =? 0) = false).
    { apply Z.eqb_neq. destruct posts; [contradiction | cbn [List.length]; lia]. }
    split.
    + rewrite list_items_Home, Hlen. cbn [app].
      intros [[p [Hp _]]%in_map_iff | [H | []]]%in_app_or; discriminate.
    + intros Hdesc Hdata.
      unfold Home. rewrite texts_HomeFragment, Hlen, slice_MAX_DISPLAY.
      rewrite (flat_map_cards _ _ _ texts_card).
      cbn [app].
      intros [H | [H | [H | [H | H]]]]; try discriminate H.
      { now apply Hdesc. }
      apply in_app_or in H. destruct H as [H | H].
      * apply in_flat_map in H. destruct H as (p & Hp & Hin).
        apply In_firstn in Hp. destruct (Hdata p Hp) as (Hd & Ht & Hs).
        destruct Hin as [H | [H | [H | [H | [H | []]]]]];
          try discriminate H; congruence.
      * apply in_app_or in H. destruct H as [H | H].
        -- destruct (MAX_DISPLAY <? Z.of_nat (List.length posts));
             [destruct H as [H | []]; discriminate H | contradiction].
        -- destruct texts_Newsletter as [E | E]; rewrite E in H;
             [contradiction | destruct H as [H | []]; discriminate H].
Qed.

Lemma date_times_Home posts :
  date_times (Home siteMetadata formatDate posts) =
  map (fun p => Some (PStr (date p))) (firstn 5 posts).
Proof. unfold date_times. rewrite times_Home, map_map. reflexivity. Qed.

Lemma shown_dates_Home posts :
  shown_dates (Home siteMetadata formatDate posts) =
  map (fun p => formatDate (Some (date p)) (locale siteMetadata)) (firstn 5 posts).
Proof.
  unfold shown_dates. rewrite times_Home, flat_map_map. cbn [texts flat_map app].
  apply flat_map_singleton.
Qed.

(** Every card of the page is the card of one of the posts. *)
Lemma cards_Home_inv posts c :
  In c (cards (Home siteMetadata formatDate posts)) ->
  exists p, In p posts /\ c = card siteMetadata formatDate p.
Proof.
  rewrite cards_Home. intros (p & <- & Hp)%in_map_iff.
  exists p. split; [now apply In_firstn in Hp | reflexivity].
Qed.

(** C4. Seven posts, no two of the same date, sorted by date descending:
    the page has five cards, those of the first five posts; each of these
    posts is more recent than each of the two left out; the dates the cards
    carry are strictly descending; and the "All Posts" link is there. *)
Theorem Home_seven_posts (posts : list Post) :
  List.length posts = 7%nat ->
  NoDup (map date posts) ->
  StronglySorted (fun a b => date_le b a = true) posts ->
  cards (Home siteMetadata formatDate posts) =
    map (card siteMetadata formatDate) (firstn 5 posts)
  /\ List.length (cards (Home siteMetadata formatDate posts)) = 5%nat
  /\ (forall p q, In p (firstn 5 posts) -> In q (skipn 5 posts) ->
        date_lt q p = true)
  /\ date_times (Home siteMetadata formatDate posts) =
       map (fun p => Some (PStr (date p))) (firstn 5 posts)
  /\ StronglySorted (fun a b => String.ltb b a = true) (map date (firstn 5 posts))
  /\ links_to "/blog" (Home siteMetadata formatDate posts) = [AllPostsLink].
Proof.
  intros Hlen Hnd Hs.
  pose proof (strictly_descending posts Hnd Hs) as Hstrict.
  rewrite <- (firstn_skipn 5 posts) in Hstrict.
  apply StronglySorted_app in Hstrict. destruct Hstrict as (Hfirst & _ & Hcross).
  split; [apply cards_Home |].
  split; [rewrite cards_Home, length_map, length_firstn, Hlen; reflexivity |].
  split; [exact Hcross |].
  split; [apply date_times_Home |].
  split; [apply StronglySorted_map; exact Hfirst |].
  rewrite links_to_blog_Home, Hlen. reflexivity.
Qed.

(** C5. Every card of the page is the card of one of the posts and shows
    that post: its formatted date, its title as the text of a link to
    /blog/ followed by its slug, one label per tag, in the order of the
    tags, and its summary. *)
Theorem Home_card_shows_post (posts : list Post) (c : node) :
  In c (cards (Home siteMetadata formatDate posts)) ->
  exists p : Post,
    In p posts
    /\ shown_dates c = [formatDate (Some (date p)) (locale siteMetadata)]
    /\ (exists l, In l (links c)
                  /\ href l = Some (PStr ("/blog/" ++ slug p))
                  /\ children l = [Text (title p)])
    /\ labels c = map TagLabel (tags p)
    /\ map (prop "text") (labels c) = map (fun t => Some (PStr t)) (tags p)
    /\ texts c =
         ["Published on"; formatDate (Some (date p)) (locale siteMetadata);
          title p; summary p; "Read more →"].
Proof.
  intros Hc. destruct (cards_Home_inv posts c Hc) as (p & Hp & ->).
  exists p. unfold card.
  rewrite shown_dates_Card, links_Card, labels_Card, texts_Card.
  repeat split; try assumption.
  - eexists. split; [left; reflexivity | split; reflexivity].
  - rewrite map_map. reflexivity.
Qed.

(** C10. Every card of the page has two links: the first has the title as
    its text, the second the text "Read more →", and both have the address
    /blog/ followed by the slug of the card's post. *)
Theorem Home_card_read_more (posts : list Post) (c : node) :
  In c (cards (Home siteMetadata formatDate posts)) ->
  exists (p : Post) (l1 l2 : node),
    In p posts
    /\ prop "key" c = Some (PStr (slug p))
    /\ links c = [l1; l2]
    /\ children l1 = [Text (title p)]
    /\ children l2 = [Text "Read more →"]
    /\ href l1 = Some (PStr ("/blog/" ++ slug p))
    /\ href l2 = Some (PStr ("/blog/" ++ slug p)).
Proof.
  intros Hc. destruct (cards_Home_inv posts c Hc) as (p & Hp & ->).
  exists p. unfold card. rewrite links_Card.
  do 2 eexists. repeat split. exact Hp.
Qed.

(** *** Run-time behaviour *)

(** On well-formed entries the callback of map never throws. *)
Lemma map_card_js_ok (l : list (option JsPost)) :
  forallb well_formed_post l = true ->
  exists cs, Js.map_throwing (card_js siteMetadata formatDate) l = Js.ok cs
             /\ List.length cs = List.length l.
Proof.
  induction l as [| e l IH]; cbn [forallb Js.map_throwing].
  - intros _. exists []. split; reflexivity.
  - intros [He Hl]%andb_true_iff. destruct (IH Hl) as (cs & Hcs & Hlen).
    destruct e as [p |]; [| discriminate He].
    unfold card_js at 1. unfold well_formed_post in He.
    destruct (js_slug p), (js_date p), (js_title p), (js_summary p),
      (js_tags p) as [tags |]; try discriminate He.
    rewrite Hcs. cbn. eexists. split; [reflexivity |]. cbn. now rewrite Hlen.
Qed.

Lemma map_card_js_to_js (l : list Post) :
  Js.map_throwing (card_js siteMetadata formatDate)
    (map (fun p => Some (to_js p)) l) =
  Js.ok (map (card siteMetadata formatDate) l).
Proof.
  induction l as [| p l IH]; cbn; [reflexivity |].
  cbn in IH. now rewrite IH.
Qed.

(** On a listing, the run-time reading of [Home] returns the page. *)
Lemma Home_js_to_js (posts : list Post) :
  Home_js siteMetadata formatDate (to_js_posts posts) =
  Js.ok (Home siteMetadata formatDate posts).
Proof.
  unfold Home_js, to_js_posts, Home.
  rewrite !slice_MAX_DISPLAY, firstn_map, map_card_js_to_js, length_map.
  reflexivity.
Qed.

(** The page depends on the posts only through the five properties that
    [Home] destructures. *)
Lemma Home_reads_five_properties (posts1 posts2 : list Post) :
  map to_js posts1 = map to_js posts2 ->
  Home siteMetadata formatDate posts1 = Home siteMetadata formatDate posts2.
Proof.
  intros H.
  assert (E : to_js_posts posts1 = to_js_posts posts2).
  { unfold to_js_posts. now rewrite <- !(map_map to_js Some), H. }
  pose proof (Home_js_to_js posts1) as H1. rewrite E, Home_js_to_js in H1.
  assert (I : forall a b : node, Js.ok a = Js.ok b -> a = b)
    by (intros a b Hab; unfold Js.ok in Hab; inversion Hab; reflexivity).
  symmetry. exact (I _ _ H1).
Qed.

(** C7. On well-formed input, the empty array included, [Home] returns a
    page and throws nothing. *)
Theorem Home_js_total (posts : JsPosts) :
  well_formed posts = true ->
  exists t : node, Home_js siteMetadata formatDate posts = Js.ok t.
Proof.
  destruct posts as [l |]; cbn [well_formed]; [| discriminate].
  intros Hwf. unfold Home_js.
  destruct (map_card_js_ok (Js.slice 0 MAX_DISPLAY l)) as (cs & Hcs & _).
  - rewrite slice_MAX_DISPLAY. now apply forallb_firstn.
  - rewrite Hcs. cbn. eexists. reflexivity.
Qed.

(** C9. [SearchButton] renders the Algolia button when the provider is
    algolia, the KBar button when it is kbar, and nothing otherwise: with
    another provider, or with no search entry in the configuration. *)
Theorem SearchButton_dispatch :
  (forall s, search siteMetadata = Some s -> search_provider s = "algolia" ->
     SearchButton siteMetadata =
     Elem "AlgoliaButton" [("aria-label", PStr "Search")] [SearchIcon])
  /\ (forall s, search siteMetadata = Some s -> search_provider s = "kbar" ->
        SearchButton siteMetadata =
        Elem "KBarButton" [("aria-label", PStr "Search")] [SearchIcon])
  /\ ((forall s, search siteMetadata = Some s ->
          search_provider s <> "algolia" /\ search_provider s <> "kbar") ->
      SearchButton siteMetadata = JUndefined
      /\ rendered (SearchButton siteMetadata) = []).
Proof.
  unfold SearchButton. repeat split.
  - intros s -> ->. reflexivity.
  - intros s -> ->. reflexivity.
  - destruct (search siteMetadata) as [s |]; [| reflexivity].
    destruct (H s eq_refl) as [Ha Hk].
    apply String.eqb_neq in Ha, Hk. now rewrite Ha, Hk.
  - destruct (search siteMetadata) as [s |]; [| reflexivity].
    destruct (H s eq_refl) as [Ha Hk].
    apply String.eqb_neq in Ha, Hk. now rewrite Ha, Hk.
Qed.

End Properties.

(** ** The listing *)

(** C8. Whatever posts the Listing Assembler is given, no post of its output
    is a draft; so the sequence that [Home] receives holds no draft, and
    every card of the page made from it is the card of a post that is not a
    draft. *)
Theorem ListingAssembler_no_draft (posts : list Post) :
  Forall (fun p => draft p = false) (ListingAssembler posts)
  /\ filter draft (ListingAssembler posts) = []
  /\ forall (siteMetadata : SiteMetadata)
            (formatDate : option string -> string -> string) (c : node),
       In c (cards (Home siteMetadata formatDate (ListingAssembler posts))) ->
       exists p, In p posts /\ draft p = false
                 /\ c = card siteMetadata formatDate p.
Proof.
  assert (H : Forall (fun p => draft p = false) (ListingAssembler posts)).
  { unfold ListingAssembler. apply sort_by_date_Forall.
    apply Forall_forall. intros p [_ Hp]%filter_In.
    now apply negb_true_iff. }
  split; [exact H |]. rewrite Forall_forall in H.
  split; [apply filter_none; exact H |].
  intros sm fd c Hc.
  destruct (cards_Home_inv sm fd _ c Hc) as (p & Hp & ->).
  exists p. repeat split; [| now apply H].
  destruct (ListingAssembler_sorted_non_drafts posts) as [Hperm _].
  apply (Permutation_in _ (Permutation_sym Hperm)) in Hp.
  now apply filter_In in Hp.
Qed.

(** ** The claims on the sample data *)

Ltac distinct :=
  repeat (constructor;
          [cbn; intros H; repeat (destruct H as [H | H]; [discriminate H |]); exact H |]);
  constructor.

Ltac descending :=
  repeat (constructor; [| repeat (constructor; [reflexivity |]); constructor]);
  constructor.

Lemma Home_seven_posts_witness :
  List.length (cards (Home Sample.site Sample.format Sample.seven)) = 5%nat
  /\ date_times (Home Sample.site Sample.format Sample.seven) =
       [Some (PStr "2025-07-01"); Some (PStr "2025-06-01"); Some (PStr "2025-04-28");
        Some (PStr "2025-03-15"); Some (PStr "2024-12-31")]
  /\ links_to "/blog" (Home Sample.site Sample.format Sample.seven) = [AllPostsLink].
Proof.
  destruct (Home_seven_posts Sample.site Sample.format Sample.seven)
    as (_ & Hlen & _ & Hdates & _ & Hlink).
  - reflexivity.
  - cbn. distinct.
  - unfold Sample.seven. descending.
  - split; [exact Hlen | split; [exact Hdates | exact Hlink]].
Defined.

Lemma Home_card_shows_post_witness :
  exists p : Post,
    In p Sample.two
    /\ labels (card Sample.site Sample.format Sample.yarn) = map TagLabel (tags p)
    /\ texts (card Sample.site Sample.format Sample.yarn) =
         ["Published on"; Sample.format (Some (date p)) "en-US";
          title p; summary p; "Read more →"].
Proof.
  destruct (Home_card_shows_post Sample.site Sample.format Sample.two
              (card Sample.site Sample.format Sample.yarn))
    as (p & Hp & _ & _ & Hlabels & _ & Htexts).
  - vm_compute. right. left. reflexivity.
  - exists p. split; [exact Hp | split; [exact Hlabels | exact Htexts]].
Defined.

Lemma Home_card_read_more_witness :
  exists (p : Post) (l1 l2 : node),
    In p Sample.two
    /\ links (card Sample.site Sample.format Sample.prisma) = [l1; l2]
    /\ children l2 = [Text "Read more →"]
    /\ href l1 = Some (PStr ("/blog/" ++ slug p))
    /\ href l2 = Some (PStr ("/blog/" ++ slug p)).
Proof.
  destruct (Home_card_read_more Sample.site Sample.format Sample.two
              (card Sample.site Sample.format Sample.prisma))
    as (p & l1 & l2 & Hp & _ & Hlinks & _ & Hmore & H1 & H2).
  - vm_compute. left. reflexivity.
  - exists p, l1, l2. repeat split; assumption.
Defined.

Lemma Home_js_total_witness :
  well_formed (to_js_posts Sample.two) = true
  /\ exists t : node,
       Home_js Sample.site Sample.format (to_js_posts Sample.two) = Js.ok t.
Proof.
  split; [reflexivity |].
  apply (Home_js_total Sample.site Sample.format (to_js_posts Sample.two)).
  reflexivity.
Defined.

(** The empty array is well-formed input, and gives the page with the text. *)
Example Home_js_empty :
  Home_js Sample.site Sample.format (Some []) =
  Js.ok (Home Sample.site Sample.format []).
Proof. reflexivity. Qed.

(** What is not well-formed throws: undefined posts, an undefined entry, an
    entry with no tags. *)
Example Home_js_undefined_posts :
  Home_js Sample.site Sample.format None = Js.throw Js.TypeError.
Proof. reflexivity. Qed.

Example Home_js_undefined_entry :
  Home_js Sample.site Sample.format (Some [Some (to_js Sample.yarn); None]) =
  Js.throw Js.TypeError.
Proof. reflexivity. Qed.

Example Home_js_undefined_tags :
  Home_js Sample.site Sample.format
    (Some [Some {| js_slug := Some "a"; js_date := Some "2025-01-01";
                   js_title := Some "A"; js_summary := Some "a";
                   js_tags := None |}]) =
  Js.throw Js.TypeError.
Proof. reflexivity. Qed.

(** The two posts of data/blog, in either order, come out most recent first,
    and the page shows both without the "All Posts" link. *)
Example ListingAssembler_blog :
  ListingAssembler [Sample.yarn; Sample.prisma] = [Sample.prisma; Sample.yarn]
  /\ map (prop "key")
       (cards (Home Sample.site Sample.format
                 (ListingAssembler [Sample.yarn; Sample.prisma]))) =
     [Some (PStr "how-to-handle-cascading-deletes-in-prisma-and-avoid-foreign-key-errors");
      Some (PStr "how-to-cleaning-up-npm-to-yarn")]
  /\ links_to "/blog"
       (Home Sample.site Sample.format
          (ListingAssembler [Sample.yarn; Sample.prisma])) = [].
Proof. repeat split. Qed.

(** A draft never reaches the page. *)
Example ListingAssembler_drops_draft :
  ListingAssembler [Sample.post "x" "2025-05-05" [] true; Sample.yarn] = [Sample.yarn].
Proof. reflexivity. Qed.

Example SearchButton_sample :
  SearchButton Sample.site =
  Elem "KBarButton" [("aria-label", PStr "Search")] [SearchIcon].
Proof. reflexivity. Qed.

(** ** Further properties of the home page *)

Lemma string_length_append (a b : string) :
  String.length (a ++ b) = (String.length a + String.length b)%nat.
Proof. induction a as [| c a IH]; cbn; [reflexivity | now rewrite IH]. Qed.

(** A common suffix can be cancelled. *)
Lemma append_cancel_r (a b c : string) : (a ++ c = b ++ c)%string -> a = b.
Proof.
  revert b. induction a as [| x a IH]; intros [| y b] H; cbn in H.
  - reflexivity.
  - apply (f_equal String.length) in H. cbn in H.
    rewrite string_length_append in H. lia.
  - apply (f_equal String.length) in H. cbn in H.
    rewrite string_length_append in H. lia.
  - injection H as -> H. f_equal. now apply IH.
Qed.

Lemma NoDup_map_injective {A B : Type} (f : A -> B) (l : list A) :
  (forall x y, f x = f y -> x = y) -> NoDup l -> NoDup (map f l).
Proof.
  intros Hinj. induction 1 as [| x l Hx Hl IH]; cbn; constructor; [| exact IH].
  intros (y & Hy & Hin)%in_map_iff. apply Hinj in Hy. now subst y.
Qed.

Lemma NoDup_firstn {A : Type} (n : nat) (l : list A) :
  NoDup l -> NoDup (firstn n l).
Proof.
  intros H. rewrite <- (firstn_skipn n l) in H. now apply NoDup_app_remove_r in H.
Qed.

Ltac read_labels :=
  rewrite ?find_all_TagLabels, ?texts_TagLabels;
  try (rewrite filter_none by (intros ? [? [<- _]]%in_map_iff; reflexivity));
  try (rewrite filter_all by (intros ? [? [<- _]]%in_map_iff; reflexivity)).

Ltac read_li :=
  intros;
  repeat match goal with v : option string |- _ => destruct v end;
  cbv beta delta [Card links newsletter_forms aria_label href];
  cbn; read_labels; rewrite ?app_nil_r; try reflexivity.

Ltac read_frame :=
  intros;
  cbv beta delta [HomeFragment Newsletter Js.and_then AllPosts AllPostsLink
                  links newsletter_forms newsletter_configured];
  repeat match goal with
    | |- context [if ?c then _ else _] => destruct c
    | |- context [match newsletter ?m with _ => _ end] => destruct (newsletter m)
    end;
  cbn; rewrite ?app_nil_r; try reflexivity.

Section Further.

Variable siteMetadata : SiteMetadata.
Variable formatDate : option string -> string -> string.

Lemma newsletter_forms_Card s d t su tags :
  newsletter_forms (Card siteMetadata formatDate s d t su tags) = [].
Proof. read_li. Qed.

Lemma newsletter_forms_HomeFragment len cs :
  newsletter_forms (HomeFragment siteMetadata len cs) =
  (flat_map newsletter_forms cs
     ++ (if newsletter_configured siteMetadata
         then [Elem "NewsletterForm" [] []] else []))%list.
Proof.
  unfold newsletter_configured, HomeFragment, Newsletter.
  destruct (newsletter siteMetadata) as [n |];
    [destruct (newsletter_provider n =? "")%string |]; cbn [negb]; read_frame.
Qed.

Lemma links_HomeFragment len cs :
  links (HomeFragment siteMetadata len cs) =
  (flat_map links cs ++ (if MAX_DISPLAY <? len then [AllPostsLink] else []))%list.
Proof. read_frame. Qed.

(** X1. The newsletter form is on the page exactly when the configuration names
    a newsletter provider, whatever the posts are; the page never holds more
    than one form. *)
Theorem Home_newsletter_gate (posts : list Post) :
  newsletter_forms (Home siteMetadata formatDate posts) =
    (if newsletter_configured siteMetadata then [Elem "NewsletterForm" [] []] else [])
  /\ (In (Elem "NewsletterForm" [] [])
        (newsletter_forms (Home siteMetadata formatDate posts))
      <-> exists n, newsletter siteMetadata = Some n /\ newsletter_provider n <> "").
Proof.
  assert (E : newsletter_forms (Home siteMetadata formatDate posts) =
              if newsletter_configured siteMetadata
              then [Elem "NewsletterForm" [] []] else []).
  { unfold Home. rewrite newsletter_forms_HomeFragment.
    rewrite (flat_map_cards siteMetadata formatDate _ (fun _ => []))
      by (intros p; apply newsletter_forms_Card).
    now rewrite flat_map_nil. }
  split; [exact E |]. rewrite E. unfold newsletter_configured.
  destruct (newsletter siteMetadata) as [n |].
  - destruct (String.eqb_spec (newsletter_provider n) "") as [He | Hne]; cbn.
    + split; [intros [] | intros (m & Hm & Hp)]. injection Hm as <-. contradiction.
    + split; [intros _; now exists n | intros _; now left].
  - split; [intros [] | intros (m & Hm & _); discriminate Hm].
Qed.

(** X2. With MAX_DISPLAY posts or fewer the page shows every post, in order, and
    has no element that leads to /blog. *)
Theorem Home_shows_all_when_few (posts : list Post) :
  (List.length posts <= Z.to_nat MAX_DISPLAY)%nat ->
  cards (Home siteMetadata formatDate posts) = map (card siteMetadata formatDate) posts
  /\ List.length (cards (Home siteMetadata formatDate posts)) = List.length posts
  /\ links_to "/blog" (Home siteMetadata formatDate posts) = [].
Proof.
  change (Z.to_nat MAX_DISPLAY) with 5%nat. intros Hlen.
  rewrite cards_Home, links_to_blog_Home, firstn_all2 by exact Hlen.
  rewrite length_map. repeat split.
  destruct (Z.ltb_spec MAX_DISPLAY (Z.of_nat (List.length posts))) as [H | _];
    [unfold MAX_DISPLAY in H; lia | reflexivity].
Qed.

(** X3. The list shows the text "No posts found." exactly when it shows no card,
    which is exactly when there is no post: the two never come together, and
    one of them is always there. *)
Theorem Home_message_iff_no_card (posts : list Post) :
  (In (Text "No posts found.") (list_items (Home siteMetadata formatDate posts))
   <-> cards (Home siteMetadata formatDate posts) = [])
  /\ (cards (Home siteMetadata formatDate posts) = [] <-> posts = []).
Proof.
  rewrite list_items_Home, cards_Home.
  destruct posts as [| p posts]; cbn.
  - split; split; auto.
  - split; split; try discriminate.
    intros [H | H]; [discriminate H |].
    apply in_app_or in H. destruct H as [(q & Hq & _)%in_map_iff | [H | []]];
      discriminate.
Qed.

(** X4. The cards depend on the first MAX_DISPLAY posts only: the page of the
    whole sequence has the cards of the page of its first five posts, and
    posts added after the fifth change no card. *)
Theorem Home_cards_prefix (posts : list Post) :
  cards (Home siteMetadata formatDate posts) =
    cards (Home siteMetadata formatDate (firstn (Z.to_nat MAX_DISPLAY) posts))
  /\ forall more : list Post,
       (Z.to_nat MAX_DISPLAY <= List.length posts)%nat ->
       cards (Home siteMetadata formatDate (posts ++ more)) =
       cards (Home siteMetadata formatDate posts).
Proof.
  change (Z.to_nat MAX_DISPLAY) with 5%nat. rewrite !cards_Home. split.
  - now rewrite firstn_firstn.
  - intros more Hlen. rewrite cards_Home, firstn_app.
    replace (5 - List.length posts)%nat with 0%nat by lia.
    cbn [firstn]. now rewrite app_nil_r.
Qed.

(** X5. The keys of the cards are the slugs of the posts shown: they are
    pairwise distinct exactly when these slugs are, and so whenever no two
    posts share a slug. *)
Theorem Home_card_keys_distinct (posts : list Post) :
  (NoDup (map (prop "key") (cards (Home siteMetadata formatDate posts)))
   <-> NoDup (map slug (firstn (Z.to_nat MAX_DISPLAY) posts)))
  /\ (NoDup (map slug posts) ->
      NoDup (map (prop "key") (cards (Home siteMetadata formatDate posts)))).
Proof.
  change (Z.to_nat MAX_DISPLAY) with 5%nat.
  assert (E : map (prop "key") (cards (Home siteMetadata formatDate posts)) =
              map (fun s => Some (PStr s)) (map slug (firstn 5 posts))).
  { rewrite cards_Home, !map_map. reflexivity. }
  rewrite E.
  assert (Hinj : forall x y : string, Some (PStr x) = Some (PStr y) -> x = y)
    by (intros x y H; now injection H).
  assert (Hiff : NoDup (map (fun s => Some (PStr s)) (map slug (firstn 5 posts)))
                 <-> NoDup (map slug (firstn 5 posts))).
  { split; [apply NoDup_map_inv | now apply NoDup_map_injective]. }
  split; [exact Hiff |].
  intros Hnd. apply Hiff. rewrite <- firstn_map. now apply NoDup_firstn.
Qed.

(** X6. A card has one label per tag, in the order of the tags, keyed and
    captioned by the tag: a tag listed twice is shown twice under one key, and
    the keys are pairwise distinct exactly when the tags are. *)
Theorem card_labels_follow_tags (p : Post) :
  map (prop "key") (labels (card siteMetadata formatDate p)) =
    map (fun t => Some (PStr t)) (tags p)
  /\ map (prop "text") (labels (card siteMetadata formatDate p)) =
       map (fun t => Some (PStr t)) (tags p)
  /\ (NoDup (map (prop "key") (labels (card siteMetadata formatDate p)))
      <-> NoDup (tags p)).
Proof.
  unfold card. rewrite labels_Card, !map_map.
  change (map (fun x => prop "key" (TagLabel x)) (tags p))
    with (map (fun t => Some (PStr t)) (tags p)).
  repeat split.
  - apply NoDup_map_inv.
  - apply NoDup_map_injective. intros x y H. now injection H.
Qed.

Lemma links_Home posts :
  links (Home siteMetadata formatDate posts) =
  (flat_map (fun p => links (card siteMetadata formatDate p)) (firstn 5 posts)
     ++ (if MAX_DISPLAY <? Z.of_nat (List.length posts) then [AllPostsLink] else []))%list.
Proof.
  unfold Home. rewrite links_HomeFragment, slice_MAX_DISPLAY.
  now rewrite (flat_map_cards siteMetadata formatDate links
                 (fun p => links (card siteMetadata formatDate p))).
Qed.

Lemma length_links_cards (l : list Post) :
  List.length (flat_map (fun p => links (card siteMetadata formatDate p)) l) =
  (2 * List.length l)%nat.
Proof.
  induction l as [| p l IH]; [reflexivity |].
  cbn [flat_map]. rewrite length_app, IH. unfold card. rewrite links_Card.
  cbn [List.length]. lia.
Qed.

(** X7. Every link of the page leads to /blog or to /blog/ followed by the slug
    of one of the posts shown, and the page has two links per card, plus the
    "All Posts" link when there are more than MAX_DISPLAY posts. *)
Theorem Home_links_stay_in_blog (posts : list Post) :
  Forall (fun l =>
            href l = Some (PStr "/blog")
            \/ exists p, In p (firstn (Z.to_nat MAX_DISPLAY) posts)
                         /\ href l = Some (PStr ("/blog/" ++ slug p)))
         (links (Home siteMetadata formatDate posts))
  /\ List.length (links (Home siteMetadata formatDate posts)) =
       (2 * Nat.min (List.length posts) (Z.to_nat MAX_DISPLAY)
        + (if (MAX_DISPLAY <? Z.of_nat (List.length posts))%Z then 1 else 0))%nat.
Proof.
  change (Z.to_nat MAX_DISPLAY) with 5%nat. rewrite links_Home. split.
  - apply Forall_app. split.
    + apply Forall_flat_map, Forall_forall. intros p Hp.
      unfold card. rewrite links_Card.
      assert (Hl : forall l, href l = Some (PStr ("/blog/" ++ slug p)) ->
                   href l = Some (PStr "/blog")
                   \/ exists p, In p (firstn 5 posts)
                                /\ href l = Some (PStr ("/blog/" ++ slug p)))
        by (intros l Hl; right; now exists p).
      constructor; [now apply Hl | constructor; [now apply Hl | constructor]].
    + destruct (MAX_DISPLAY <? Z.of_nat (List.length posts));
        [constructor; [now left | constructor] | constructor].
  - rewrite length_app, length_links_cards, length_firstn.
    rewrite (Nat.min_comm 5).
    now destruct (MAX_DISPLAY <? Z.of_nat (List.length posts)).
Qed.

(** X8. The title link of a card has no accessible label of its own; the second
    link is labelled Read more: followed by the title in double quotes.  So
    the labels of two cards agree exactly when the titles of their posts do. *)
Theorem card_labels_tell_titles (p q : Post) :
  map aria_label (links (card siteMetadata formatDate p)) =
    [None; Some (PStr ("Read more: " ++ dquote ++ title p ++ dquote))]
  /\ (map aria_label (links (card siteMetadata formatDate p)) =
      map aria_label (links (card siteMetadata formatDate q))
      <-> title p = title q).
Proof.
  assert (E : forall r, map aria_label (links (card siteMetadata formatDate r)) =
                        [None; Some (PStr ("Read more: " ++ dquote ++ title r ++ dquote))]).
  { intros r. unfold card. now rewrite links_Card. }
  split; [apply E |]. rewrite !E. split.
  - intros H. injection H as H. cbn in H.
    now apply append_cancel_r in H.
  - now intros ->.
Qed.

(** Searches among cards find the cards themselves, and nothing that
    belongs to the frame of the page. *)
Lemma flat_map_all_cards (cs : list node) :
  Forall (is_card siteMetadata formatDate) cs ->
  flat_map cards cs = cs
  /\ flat_map (links_to "/blog") cs = []
  /\ flat_map (find_all (is_elem "ul")) cs = []
  /\ flat_map rendered cs = cs.
Proof.
  induction 1 as [| c cs (s & d & t & su & tags & ->) _ (IH1 & IH2 & IH3 & IH4)];
    [repeat split |].
  cbn [flat_map].
  rewrite cards_Card, links_to_blog_Card, lists_Card, IH1, IH2, IH3, IH4.
  repeat split.
Qed.

(** X11. An entry with tags but no slug and no title still gives a card: its key
    is undefined, both its links lead to /blog/undefined, the title link has
    no text, and the label of the second link quotes the word undefined. *)
Theorem card_js_missing_slug_and_title (p : JsPost) (tags : list string) :
  js_tags p = Some tags ->
  js_slug p = None ->
  js_title p = None ->
  exists c : node,
    card_js siteMetadata formatDate (Some p) = Js.ok c
    /\ prop "key" c = Some PUndefined
    /\ map href (links c) =
         [Some (PStr "/blog/undefined"); Some (PStr "/blog/undefined")]
    /\ flat_map texts (links c) = ["Read more →"]
    /\ map aria_label (links c) =
         [None; Some (PStr ("Read more: " ++ dquote ++ "undefined" ++ dquote))]
    /\ labels c = map TagLabel tags.
Proof.
  intros Ht Hs Hti. unfold card_js. rewrite Ht, Hs, Hti.
  eexists. split; [reflexivity |].
  rewrite links_Card, labels_Card. repeat split.
Qed.

(** X12. Each card carries one <time>: its dateTime is the date of the post as
    written, its text the same date formatted for the locale of the site, so
    the two always go in pairs and in the order of the posts. *)
Theorem Home_dates_paired (posts : list Post) :
  date_times (Home siteMetadata formatDate posts) =
    map (fun p => Some (PStr (date p))) (firstn (Z.to_nat MAX_DISPLAY) posts)
  /\ shown_dates (Home siteMetadata formatDate posts) =
       map (fun p => formatDate (Some (date p)) (locale siteMetadata))
         (firstn (Z.to_nat MAX_DISPLAY) posts)
  /\ List.length (shown_dates (Home siteMetadata formatDate posts)) =
       List.length (cards (Home siteMetadata formatDate posts)).
Proof.
  change (Z.to_nat MAX_DISPLAY) with 5%nat.
  rewrite date_times_Home, shown_dates_Home, cards_Home, !length_map.
  repeat split.
Qed.

End Further.

(** ** The further properties on the sample data *)

Lemma Home_shows_all_when_few_witness :
  cards (Home Sample.site Sample.format Sample.two) =
    [card Sample.site Sample.format Sample.prisma;
     card Sample.site Sample.format Sample.yarn]
  /\ links_to "/blog" (Home Sample.site Sample.format Sample.two) = [].
Proof.
  destruct (Home_shows_all_when_few Sample.site Sample.format Sample.two)
    as (Hcards & _ & Hlinks).
  - cbn. lia.
  - split; [exact Hcards | exact Hlinks].
Defined.

Lemma card_js_missing_slug_and_title_witness :
  exists c : node,
    card_js Sample.site Sample.format
      (Some {| js_slug := None; js_date := Some "2025-01-01"; js_title := None;
               js_summary := Some "A summary"; js_tags := Some ["a"; "b"] |}) =
    Js.ok c
    /\ map href (links c) =
         [Some (PStr "/blog/undefined"); Some (PStr "/blog/undefined")].
Proof.
  destruct (card_js_missing_slug_and_title Sample.site Sample.format
              {| js_slug := None; js_date := Some "2025-01-01"; js_title := None;
                 js_summary := Some "A summary"; js_tags := Some ["a"; "b"] |}
              ["a"; "b"] eq_refl eq_refl eq_refl)
    as (c & Hc & _ & Hhref & _).
  exists c. split; [exact Hc | exact Hhref].
Defined.

(** ** Any run-time value of posts, and the store *)

Lemma nth_error_app_Some {A : Type} (l x : list A) (n : nat) (a : A) :
  nth_error l n = Some a -> nth_error (l ++ x) n = Some a.
Proof.
  intros H. rewrite nth_error_app1; [exact H |].
  apply nth_error_Some. congruence.
Qed.

Lemma traverse_firstn {A B : Type} (f : A -> option B) (n : nat) (l : list A) (l' : list B) :
  traverse f l = Some l' -> traverse f (firstn n l) = Some (firstn n l').
Proof.
  revert l l'. induction n as [| n IH]; intros [| x l] l' H; cbn in *;
    try (injection H as <-; reflexivity); [reflexivity |].
  destruct (f x) as [y |]; [| discriminate H].
  destruct (traverse f l) as [ys |] eqn:E; [| discriminate H].
  injection H as <-. cbn. now rewrite (IH l ys E).
Qed.

Lemma traverse_length {A B : Type} (f : A -> option B) (l : list A) (l' : list B) :
  traverse f l = Some l' -> List.length l' = List.length l.
Proof.
  revert l'. induction l as [| x l IH]; intros l' H; cbn in H.
  - now injection H as <-.
  - destruct (f x) as [y |]; [| discriminate H].
    destruct (traverse f l) as [ys |]; [| discriminate H].
    injection H as <-. cbn. now rewrite (IH ys).
Qed.

Lemma traverse_ext {A B : Type} (f g : A -> option B) (l : list A) (l' : list B) :
  (forall x y, f x = Some y -> g x = Some y) ->
  traverse f l = Some l' -> traverse g l = Some l'.
Proof.
  intros Hfg. revert l'. induction l as [| x l IH]; intros l' H; cbn in *; [exact H |].
  destruct (f x) as [y |] eqn:Ex; [| discriminate H].
  destruct (traverse f l) as [ys |]; [| discriminate H].
  now rewrite (Hfg x y Ex), (IH ys eq_refl).
Qed.

(** Reading in depth is not disturbed by new objects. *)
Lemma read_tags_grow (h x : list HObj) (t : HTags) (v : RtTags) :
  read_tags h t = Some v -> read_tags (h ++ x) t = Some v.
Proof.
  destruct t as [| | | r]; cbn; try easy.
  destruct (nth_error h r) as [o |] eqn:E; [| discriminate].
  now rewrite (nth_error_app_Some h x r o E).
Qed.

Lemma read_entry_grow (h x : list HObj) (e : HEntry) (v : RtEntry) :
  read_entry h e = Some v -> read_entry (h ++ x) e = Some v.
Proof.
  destruct e as [| | | r]; cbn; try easy.
  destruct (nth_error h r) as [o |] eqn:E; [| discriminate].
  rewrite (nth_error_app_Some h x r o E).
  destruct o as [| s d t su tg |]; try discriminate.
  destruct (read_tags h tg) as [tg' |] eqn:Et; [| discriminate].
  now rewrite (read_tags_grow h x tg tg' Et).
Qed.

Lemma read_slot_grow (h x : list HObj) (s : option HEntry) (v : option RtEntry) :
  read_slot h s = Some v -> read_slot (h ++ x) s = Some v.
Proof.
  destruct s as [e |]; cbn; [| easy].
  destruct (read_entry h e) as [e' |] eqn:E; [| discriminate].
  now rewrite (read_entry_grow h x e e' E).
Qed.

Lemma read_posts_grow (h x : list HObj) (p : HPosts) (v : RtPosts) :
  read_posts h p = Some v -> read_posts (h ++ x) p = Some v.
Proof.
  destruct p as [| | r]; cbn; try easy.
  destruct (nth_error h r) as [o |] eqn:E; [| discriminate].
  rewrite (nth_error_app_Some h x r o E).
  destruct o as [slots | |]; try discriminate.
  destruct (traverse (read_slot h) slots) as [slots' |] eqn:Et; [| discriminate].
  now rewrite (traverse_ext _ (read_slot (h ++ x)) slots slots'
                 (read_slot_grow h x) Et).
Qed.

Section RunTimeProperties.

Variable siteMetadata : SiteMetadata.
Variable formatDate : option string -> string -> string.

(** The callback either throws, on a throwing entry, or gives the card of an
    object with an array of tags. *)
Lemma card_rt_cases (e : RtEntry) :
  (throwing_entry e
   /\ card_rt formatDate siteMetadata e = Js.throw Js.TypeError)
  \/ (~ throwing_entry e
      /\ exists o tags,
           e = EntryObject o /\ rt_tags o = TagsArray tags
           /\ card_rt formatDate siteMetadata e =
              Js.ok (Card siteMetadata formatDate (rt_slug o) (rt_date o)
                       (rt_title o) (rt_summary o) tags)).
Proof.
  destruct e as [| | | o]; cbn; try (left; split; [exact I | reflexivity]).
  destruct (rt_tags o) as [| | | tags] eqn:Et;
    try (left; split; [intros tags; discriminate | reflexivity]).
  right. split; [intros H; now apply (H tags) | now exists o, tags].
Qed.

Lemma map_slots_cases (l : list (option RtEntry)) :
  (Exists throwing_slot l
   /\ map_slots (card_rt formatDate siteMetadata) l = Js.throw Js.TypeError)
  \/ (~ Exists throwing_slot l
      /\ exists cs, map_slots (card_rt formatDate siteMetadata) l = Js.ok cs
                    /\ Forall2 (slot_card siteMetadata formatDate) l cs).
Proof.
  induction l as [| s l IH]; cbn [map_slots].
  - right. split; [intros H; inversion H | exists []; split; [reflexivity | constructor]].
  - destruct s as [e |].
    + destruct (card_rt_cases e) as [[Hbad ->] | [Hgood (o & tags & -> & Ht & ->)]].
      * left. split; [left; now exists e | reflexivity].
      * destruct IH as [[Hex ->] | [Hnone (cs & -> & Hcs)]]; cbn.
        -- left. split; [now right | reflexivity].
        -- right. split.
           ++ intros H. inversion H as [? ? (e' & He' & Hthrow) | ]; subst;
                [injection He' as <-; contradiction | contradiction].
           ++ eexists. split; [reflexivity |]. constructor; [| exact Hcs].
              cbn. now exists (rt_slug o), (rt_date o), (rt_title o), (rt_summary o), tags.
    + destruct IH as [[Hex ->] | [Hnone (cs & -> & Hcs)]]; cbn.
      * left. split; [now right | reflexivity].
      * right. split.
        -- intros H. inversion H as [? ? (e' & He' & _) | ]; subst;
             [discriminate He' | contradiction].
        -- eexists. split; [reflexivity |]. constructor; [exact I | exact Hcs].
Qed.

(** Among slots of cards and holes, a search finds the cards. *)
Lemma flat_map_slots (ss : list (option RtEntry)) (cs : list (option node)) :
  Forall2 (slot_card siteMetadata formatDate) ss cs ->
  Forall (is_card siteMetadata formatDate) (present cs)
  /\ List.length (present cs) = List.length (present ss)
  /\ flat_map cards (map child_of_slot cs) = present cs
  /\ flat_map (links_to "/blog") (map child_of_slot cs) = []
  /\ flat_map (find_all (is_elem "ul")) (map child_of_slot cs) = []
  /\ flat_map rendered (map child_of_slot cs) = present cs.
Proof.
  induction 1 as [| s c ss cs Hsc _ (IH0 & IHl & IH1 & IH2 & IH3 & IH4)];
    [repeat split; constructor |].
  destruct s as [e |], c as [n |]; cbn in Hsc; try contradiction.
  - destruct Hsc as (sl & d & t & su & tags & ->).
    cbn [map child_of_slot flat_map present app List.length].
    rewrite cards_Card, links_to_blog_Card, lists_Card.
    fold (@present node cs). fold (@present RtEntry ss).
    rewrite IH1, IH2, IH3, IHl.
    assert (Hr : forall l, (rendered (Card siteMetadata formatDate sl d t su tags) ++ l
                            = Card siteMetadata formatDate sl d t su tags :: l)%list)
      by reflexivity.
    rewrite Hr, IH4.
    repeat split. constructor; [| exact IH0].
    now exists sl, d, t, su, tags.
  - cbn [map child_of_slot flat_map present app find_all cards links_to rendered].
    fold (@present node cs). fold (@present RtEntry ss).
    change (flat_map (find_all (is_elem "li")) (map child_of_slot cs))
      with (flat_map cards (map child_of_slot cs)).
    change (flat_map (find_all (has_prop "href" "/blog")) (map child_of_slot cs))
      with (flat_map (links_to "/blog") (map child_of_slot cs)).
    cbn. rewrite IH1, IH2, IH3, IH4. repeat split; assumption.
Qed.

(** On the values that [Home_js] covers, [Home_rt] is [Home_js]. *)
Lemma map_slots_of_js (l : list (option JsPost)) :
  map_slots (card_rt formatDate siteMetadata) (map rt_of_js_entry l) =
  Js.bind (Js.map_throwing (card_js siteMetadata formatDate) l)
    (fun cs => Js.ok (map Some cs)).
Proof.
  induction l as [| e l IH]; [reflexivity |].
  cbn [map rt_of_js_entry map_slots Js.map_throwing]. rewrite IH.
  destruct e as [p |]; cbn; [| reflexivity].
  destruct (js_tags p) as [tags |]; cbn; [| reflexivity].
  now destruct (Js.map_throwing (card_js siteMetadata formatDate) l).
Qed.

Lemma Home_rt_of_js (posts : JsPosts) :
  Home_rt formatDate siteMetadata (rt_of_js posts) =
  Home_js siteMetadata formatDate posts.
Proof.
  destruct posts as [l |]; [| reflexivity].
  cbn [rt_of_js Home_rt Home_js].
  rewrite !slice_MAX_DISPLAY, firstn_map, map_slots_of_js, length_map.
  destruct (Js.map_throwing (card_js siteMetadata formatDate) (firstn 5 l)) as [e | cs];
    cbn; [reflexivity |].
  rewrite map_map. cbn [child_of_slot]. now rewrite map_id.
Qed.

(** X9. On posts that is undefined, null or an array, sparse or not, of
    entries as above, [Home] throws exactly when posts is undefined or null,
    or one of its first MAX_DISPLAY slots holds an entry that is undefined,
    null, a primitive, or an object whose tags are not an array.  A hole, a
    missing slug, date, title or summary, and whatever stands after the fifth
    slot never make it throw. *)
Theorem Home_rt_throws_iff (posts : RtPosts) :
  Home_rt formatDate siteMetadata posts = Js.throw Js.TypeError
  <-> posts = PostsUndefined
      \/ posts = PostsNull
      \/ exists slots, posts = PostsArray slots
                       /\ Exists throwing_slot (firstn (Z.to_nat MAX_DISPLAY) slots).
Proof.
  change (Z.to_nat MAX_DISPLAY) with 5%nat.
  destruct posts as [| | slots]; cbn [Home_rt].
  - split; [now left | reflexivity].
  - split; [right; now left | reflexivity].
  - rewrite slice_MAX_DISPLAY.
    destruct (map_slots_cases (firstn 5 slots)) as [[Hex ->] | [Hnone (cs & -> & _)]]; cbn.
    + split; [intros _; right; right; now exists slots | reflexivity].
    + split; [discriminate |].
      intros [H | [H | (l' & H & Hex)]]; try discriminate H.
      injection H as <-. contradiction.
Qed.

(** X10. Whenever [Home] returns on an array, sparse or not, the page has one
    card per entry present among the first MAX_DISPLAY slots (a hole gives
    none), the "All Posts" link exactly when the length of the array exceeds
    MAX_DISPLAY, and the text "No posts found." in the list exactly when the
    length is zero. *)
Theorem Home_rt_page_shape (slots : list (option RtEntry)) (t : node) :
  Home_rt formatDate siteMetadata (PostsArray slots) = Js.ok t ->
  List.length (cards t) =
    List.length (present (firstn (Z.to_nat MAX_DISPLAY) slots))
  /\ links_to "/blog" t =
       (if MAX_DISPLAY <? Z.of_nat (List.length slots) then [AllPostsLink] else [])
  /\ (In (Text "No posts found.") (list_items t) <-> slots = []).
Proof.
  change (Z.to_nat MAX_DISPLAY) with 5%nat.
  cbn [Home_rt]. rewrite slice_MAX_DISPLAY.
  destruct (map_slots_cases (firstn 5 slots)) as [[_ ->] | [_ (cs & -> & Hcs)]]; cbn;
    [discriminate |].
  intros Ht.
  assert (E : t = HomeFragment siteMetadata (Z.of_nat (List.length slots))
                    (map child_of_slot cs))
    by (unfold Js.ok in Ht; now injection Ht).
  subst t. clear Ht.
  destruct (flat_map_slots _ _ Hcs) as (Hall & Hlen & H1 & H2 & H3 & H4).
  split; [now rewrite cards_HomeFragment, H1 |].
  split; [now rewrite links_to_blog_HomeFragment, H2 |].
  unfold list_items. rewrite lists_HomeFragment, H3.
  cbn [flat_map children rendered app]. rewrite H4, ?app_nil_r.
  destruct slots as [| s slots]; cbn.
  - split; [reflexivity | intros _; now left].
  - split; [| discriminate].
    intros H. apply in_app_or in H. destruct H as [H | [H | []]]; [| discriminate H].
    rewrite Forall_forall in Hall. destruct (Hall _ H) as (sl & d & ti & su & tags & E).
    discriminate E.
Qed.

(** *** Runs on the store *)

(** The callback, run on an entry that the heap holds in full, reads the
    heap, leaves the store as it is, and does what [card_rt] does. *)
Lemma callback_run (sm : SiteMetadata) (s : Store) (e : HEntry) (e' : RtEntry) :
  read_entry (st_heap s) e = Some e' ->
  (fields <~ destructure e ;;
   let '(slug, date, title, summary, tags) := fields in
   tags <~ tags_of tags ;;
   Run.ret (Card sm formatDate slug date title summary tags)) s =
  Some (card_rt formatDate sm e', s).
Proof.
  destruct e as [| | | r]; cbn; try (intros H; injection H as <-; reflexivity).
  destruct (nth_error (st_heap s) r) as [o |] eqn:Er; [| discriminate].
  destruct o as [| sl d t su tg |]; try discriminate.
  destruct (read_tags (st_heap s) tg) as [tg' |] eqn:Et; [| discriminate].
  intros H. injection H as <-.
  unfold Run.bind, Run.deref. rewrite Er. cbn.
  destruct tg as [| | | r']; cbn in Et |- *;
    try (injection Et as <-; reflexivity).
  unfold Run.bind, Run.deref.
  destruct (nth_error (st_heap s) r') as [o' |]; [| discriminate Et].
  destruct o' as [| | tags]; try discriminate Et.
  injection Et as <-. reflexivity.
Qed.

Lemma run_slots_callback (sm : SiteMetadata) (s : Store)
    (slots : list (option HEntry)) (slots' : list (option RtEntry)) :
  traverse (read_slot (st_heap s)) slots = Some slots' ->
  run_slots (fun post =>
               fields <~ destructure post ;;
               let '(slug, date, title, summary, tags) := fields in
               tags <~ tags_of tags ;;
               Run.ret (Card sm formatDate slug date title summary tags))
            slots s =
  Some (map_slots (card_rt formatDate sm) slots', s).
Proof.
  revert slots'. induction slots as [| sl slots IH]; intros slots' H; cbn in H.
  - injection H as <-. reflexivity.
  - destruct (read_slot (st_heap s) sl) as [sl' |] eqn:Es; [| discriminate H].
    destruct (traverse (read_slot (st_heap s)) slots) as [rest |]; [| discriminate H].
    injection H as <-. specialize (IH rest eq_refl).
    destruct sl as [e |]; cbn in Es.
    + destruct (read_entry (st_heap s) e) as [e' |] eqn:Ee; [| discriminate Es].
      injection Es as <-.
      cbn [run_slots map_slots]. unfold Run.bind at 1.
      rewrite (callback_run sm s e e' Ee).
      destruct (card_rt formatDate sm e') as [err | c]; [reflexivity |].
      unfold Run.bind at 1. rewrite IH.
      now destruct (map_slots (card_rt formatDate sm) rest).
    + injection Es as <-.
      cbn [run_slots map_slots]. unfold Run.bind at 1. rewrite IH.
      now destruct (map_slots (card_rt formatDate sm) rest).
Qed.

(** Steps of a run. *)
Lemma bind_returned {A B : Type} (m : Run.t A) (k : A -> Run.t B)
    (s s' : Store) (a : A) :
  m s = Some (Js.ok a, s') -> Run.bind m k s = k a s'.
Proof. unfold Run.bind. now intros ->. Qed.

Lemma bind_thrown {A B : Type} (m : Run.t A) (k : A -> Run.t B)
    (s s' : Store) (e : Js.Error) :
  m s = Some (Js.throw e, s') -> Run.bind m k s = Some (Js.throw e, s').
Proof. unfold Run.bind. now intros ->. Qed.

Lemma slots_of_array (s : Store) (r : ref) (slots : list (option HEntry)) :
  nth_error (st_heap s) r = Some (HArrayOfEntries slots) ->
  slots_of (HPostsRef r) s = Some (Js.ok slots, s).
Proof.
  intros H. unfold slots_of.
  now rewrite (bind_returned _ _ s s (HArrayOfEntries slots))
    by (unfold Run.deref; now rewrite H).
Qed.

Lemma get_length_array (s : Store) (r : ref) (slots : list (option HEntry)) :
  nth_error (st_heap s) r = Some (HArrayOfEntries slots) ->
  get_length (HPostsRef r) s = Some (Js.ok (Z.of_nat (List.length slots)), s).
Proof.
  intros H. unfold get_length.
  now rewrite (bind_returned _ _ s s slots) by now apply slots_of_array.
Qed.

Lemma Array_slice_array (s : Store) (r : ref) (slots : list (option HEntry))
    (start final : Z) :
  nth_error (st_heap s) r = Some (HArrayOfEntries slots) ->
  Array_slice (HPostsRef r) start final s =
  Some (Js.ok (HPostsRef (List.length (st_heap s))),
        {| st_siteMetadata := st_siteMetadata s;
           st_heap := st_heap s ++ [HArrayOfEntries (Js.slice start final slots)] |}).
Proof.
  intros H. unfold Array_slice.
  now rewrite (bind_returned _ _ s s slots) by now apply slots_of_array.
Qed.

(** A run of [Home] on a store whose heap holds posts in full returns what
    [Home_rt] gives on what the heap holds, and leaves every object where it
    was and as it was: the heap only grows. *)
Lemma Home_run_spec (s : Store) (posts : HPosts) (v : RtPosts) :
  read_posts (st_heap s) posts = Some v ->
  exists fresh : list HObj,
    Home_run formatDate posts s =
    Some (Home_rt formatDate (st_siteMetadata s) v,
          {| st_siteMetadata := st_siteMetadata s;
             st_heap := st_heap s ++ fresh |}).
Proof.
  destruct s as [sm h]. cbn [st_heap st_siteMetadata].
  destruct posts as [| | r]; cbn [read_posts].
  - intros H. injection H as <-. exists []. now rewrite app_nil_r.
  - intros H. injection H as <-. exists []. now rewrite app_nil_r.
  - destruct (nth_error h r) as [o |] eqn:Er; [| discriminate].
    destruct o as [slots | |]; try discriminate.
    destruct (traverse (read_slot h) slots) as [slots' |] eqn:Et; [| discriminate].
    intros H. injection H as <-.
    exists [HArrayOfEntries (Js.slice 0 MAX_DISPLAY slots)].
    set (s0 := {| st_siteMetadata := sm; st_heap := h |}).
    set (s1 := {| st_siteMetadata := sm;
                  st_heap := h ++ [HArrayOfEntries (Js.slice 0 MAX_DISPLAY slots)] |}).
    unfold Home_run.
    rewrite (bind_returned _ _ s0 s0 sm) by reflexivity.
    rewrite (bind_returned _ _ s0 s0 (Z.of_nat (List.length slots)))
      by (apply get_length_array; exact Er).
    rewrite (bind_returned _ _ s0 s1 (HPostsRef (List.length h)))
      by (apply (Array_slice_array s0); exact Er).
    assert (Hnew : nth_error (st_heap s1) (List.length h) =
                   Some (HArrayOfEntries (Js.slice 0 MAX_DISPLAY slots))).
    { cbn [s1 st_heap]. now rewrite nth_error_app2, Nat.sub_diag by lia. }
    assert (Hcards :
      Array_map (HPostsRef (List.length h))
        (fun post =>
           fields <~ destructure post ;;
           let '(slug, date, title, summary, tags) := fields in
           tags <~ tags_of tags ;;
           Run.ret (Card sm formatDate slug date title summary tags)) s1 =
      Some (map_slots (card_rt formatDate sm) (Js.slice 0 MAX_DISPLAY slots'), s1)).
    { unfold Array_map.
      rewrite (bind_returned _ _ s1 s1 (Js.slice 0 MAX_DISPLAY slots))
        by (apply slots_of_array; exact Hnew).
      apply run_slots_callback. cbn [s1 st_heap]. rewrite !slice_MAX_DISPLAY.
      apply traverse_firstn.
      apply (traverse_ext (read_slot h)); [apply read_slot_grow | exact Et]. }
    cbn [Home_rt]. rewrite (traverse_length _ _ _ Et).
    destruct (map_slots (card_rt formatDate sm) (Js.slice 0 MAX_DISPLAY slots'))
      as [e | cs].
    + destruct e. now rewrite (bind_thrown _ _ s1 s1 Js.TypeError) by exact Hcards.
    + now rewrite (bind_returned _ _ s1 s1 cs) by exact Hcards.
Qed.

(** Two runs in a row: the second one, on the store the first one left,
    returns what the first one returned. *)
Lemma Home_run_twice (s : Store) (posts : HPosts) (v : RtPosts) :
  read_posts (st_heap s) posts = Some v ->
  exists (r : Js.Result node) (s1 s2 : Store),
    Home_run formatDate posts s = Some (r, s1)
    /\ Home_run formatDate posts s1 = Some (r, s2).
Proof.
  intros Hv. destruct (Home_run_spec s posts v Hv) as (fresh & Hrun).
  pose proof (read_posts_grow (st_heap s) fresh posts v Hv) as Hv1.
  destruct (Home_run_spec
              {| st_siteMetadata := st_siteMetadata s; st_heap := st_heap s ++ fresh |}
              posts v Hv1) as (fresh1 & Hrun1).
  do 3 eexists. split; [exact Hrun | exact Hrun1].
Qed.

(** C6. A run of [Home] writes nothing: the module object and every object
    of the heap are after the run as they were before, and the heap has only
    grown.  What the run returns is fixed by the site configuration and by
    what the heap holds behind posts.  So a second run, on the store the
    first one left or on any store with the same configuration and equal
    posts, returns the same page, or throws the same error. *)
Theorem Home_deterministic (s : Store) (posts : HPosts) (v : RtPosts) :
  read_posts (st_heap s) posts = Some v ->
  exists fresh : list HObj,
    Home_run formatDate posts s =
      Some (Home_rt formatDate (st_siteMetadata s) v,
            {| st_siteMetadata := st_siteMetadata s;
               st_heap := st_heap s ++ fresh |})
    /\ (forall r o, nth_error (st_heap s) r = Some o ->
                    nth_error (st_heap s ++ fresh) r = Some o)
    /\ read_posts (st_heap s ++ fresh) posts = Some v
    /\ forall (s2 : Store) (posts2 : HPosts),
         st_siteMetadata s2 = st_siteMetadata s ->
         read_posts (st_heap s2) posts2 = Some v ->
         exists s2' : Store,
           Home_run formatDate posts2 s2 =
           Some (Home_rt formatDate (st_siteMetadata s) v, s2').
Proof.
  intros Hv. destruct (Home_run_spec s posts v Hv) as (fresh & Hrun).
  exists fresh. split; [exact Hrun |].
  split; [intros r o; apply nth_error_app_Some |].
  split; [now apply read_posts_grow |].
  intros s2 posts2 Hsm Hv2.
  destruct (Home_run_spec s2 posts2 v Hv2) as (fresh2 & Hrun2).
  rewrite Hsm in Hrun2. eexists. exact Hrun2.
Qed.

End RunTimeProperties.

(** ** The run-time properties on the sample store *)

Lemma Home_deterministic_witness :
  read_posts SampleStore.heap SampleStore.posts = Some SampleStore.sparse
  /\ exists fresh : list HObj,
       Home_run Sample.format SampleStore.posts SampleStore.store =
         Some (Home_rt Sample.format Sample.site SampleStore.sparse,
               {| st_siteMetadata := Sample.site;
                  st_heap := SampleStore.heap ++ fresh |})
       /\ read_posts (SampleStore.heap ++ fresh) SampleStore.posts =
          Some SampleStore.sparse.
Proof.
  split; [reflexivity |].
  destruct (Home_deterministic Sample.format SampleStore.store SampleStore.posts
              SampleStore.sparse eq_refl) as (fresh & Hrun & _ & Hread & _).
  exists fresh. split; [exact Hrun | exact Hread].
Defined.

(** The array with a hole has length three and two entries: the page has two
    cards. *)
Lemma Home_rt_page_shape_witness :
  exists t : node,
    Home_rt Sample.format Sample.site SampleStore.sparse = Js.ok t
    /\ List.length (cards t) = 2%nat
    /\ links_to "/blog" t = [].
Proof.
  eexists. split; [reflexivity |].
  destruct (Home_rt_page_shape Sample.site Sample.format
              [Some (EntryObject (SampleStore.object Sample.prisma)); None;
               Some (EntryObject (SampleStore.object Sample.yarn))] _ eq_refl)
    as (Hlen & Hlink & _).
  split; [exact Hlen | exact Hlink].
Defined.

(** A write is seen: reversing posts in place leaves another array at its
    address, which no run of [Home] does. *)
Example Array_reverse_writes :
  exists s' : Store,
    Array_reverse SampleStore.posts SampleStore.store =
      Some (Js.ok SampleStore.posts, s')
    /\ nth_error (st_heap s') 4%nat <> nth_error SampleStore.heap 4%nat.
Proof. eexists. split; [reflexivity | discriminate]. Qed.

(** null posts, a null entry and tags that are a string all throw. *)
Example Home_rt_null_posts :
  Home_rt Sample.format Sample.site PostsNull = Js.throw Js.TypeError.
Proof. reflexivity. Qed.

Example Home_rt_null_entry :
  Home_rt Sample.format Sample.site (PostsArray [Some EntryNull]) =
  Js.throw Js.TypeError.
Proof. reflexivity. Qed.

Example Home_rt_tags_no_map :
  Home_rt Sample.format Sample.site
    (PostsArray [Some (EntryObject
                         {| rt_slug := Some "a"; rt_date := None; rt_title := None;
                            rt_summary := None; rt_tags := TagsNoMap |})]) =
  Js.throw Js.TypeError.
Proof. reflexivity. Qed.
